(** * IoT traffic-monitoring dashboard: the assistant panel and the station map

  A shallow embedding of [src/components/AiAssistantChat.tsx] and
  [src/components/Map.tsx].  The two components are pure functions of their
  props and of the panel's local state, apart from one network call; the
  call is modelled by the outcome the endpoint produces.

  Conventions.
  - A JavaScript [number] is [NaN], an infinity or an exact rational; the
    rounding of IEEE binary64 is not modelled, only the order and the
    equality the code uses.
  - A JavaScript string is a [string] whose characters are the code units
    below 256.
  - A run-time exception is the [None] of an [option]. *)

From Stdlib Require Import String Ascii List Bool Arith ZArith QArith Lia.
From Stdlib Require Import Sorting.Sorted Sorting.Permutation.
Import ListNotations.

Local Close Scope Q_scope.
Local Open Scope string_scope.
Local Open Scope list_scope.

(* ================================================================== *)
(** ** The JavaScript values the components handle *)

Module JS.

(** The [number] type. *)
Inductive number : Type :=
| NaN
| NegInfinity
| Infinity
| Fin (q : Q).

Definition of_Z (z : Z) : number := Fin (inject_Z z).

(** [a < b]; a comparison with [NaN] is never true. *)
Definition lt (a b : number) : bool :=
  match a, b with
  | NaN, _ | _, NaN => false
  | Infinity, _ => false
  | _, NegInfinity => false
  | NegInfinity, _ => true
  | _, Infinity => true
  | Fin x, Fin y => negb (Qle_bool y x)
  end.

(** [a > b] is [b < a]. *)
Definition gt (a b : number) : bool := lt b a.

(** [a <= b]: false when an operand is [NaN], else the negation of [b < a]. *)
Definition le (a b : number) : bool :=
  match a, b with
  | NaN, _ | _, NaN => false
  | _, _ => negb (lt b a)
  end.

(** [a === b] on numbers. *)
Definition num_eq (a b : number) : bool :=
  match a, b with
  | Fin x, Fin y => Qeq_bool x y
  | Infinity, Infinity | NegInfinity, NegInfinity => true
  | _, _ => false
  end.

(** A value of type [any], as [response.json()] and [JSON.parse] produce
    them.  An object is the list of its own properties in creation order. *)
#[local] Unset Elimination Schemes.
Inductive value : Type :=
| VUndefined
| VNull
| VBool (b : bool)
| VNum (n : number)
| VStr (s : string)
| VArr (elems : list value)
| VObj (props : list (string * value)).
#[local] Set Elimination Schemes.

(** ToBoolean. *)
Definition truthy (v : value) : bool :=
  match v with
  | VUndefined | VNull => false
  | VBool b => b
  | VNum NaN => false
  | VNum (Fin q) => negb (Qeq_bool q 0%Q)
  | VNum _ => true
  | VStr s => negb (String.eqb s "")
  | VArr _ | VObj _ => true
  end.

Definition isArray (v : value) : bool :=
  match v with VArr _ => true | _ => false end.

Definition nullish (v : value) : bool :=
  match v with VUndefined | VNull => true | _ => false end.

(** Own property of an object. *)
Fixpoint own (k : string) (props : list (string * value)) : option value :=
  match props with
  | [] => None
  | (k', v) :: rest => if String.eqb k k' then Some v else own k rest
  end.

Definition own_or_undefined (k : string) (props : list (string * value)) : value :=
  match own k props with Some v => v | None => VUndefined end.

(** [v.k] for one of the names the panel reads ([choices], [message],
    [content], [stationName]); no built-in prototype defines them, so only
    an object's own property can answer.  Reading a property of [null] or
    [undefined] throws a TypeError. *)
Definition get (v : value) (k : string) : option value :=
  match v with
  | VUndefined | VNull => None
  | VObj props => Some (own_or_undefined k props)
  | _ => Some VUndefined
  end.

(** [v?.k]: [undefined] when [v] is nullish. *)
Definition get_opt (v : value) (k : string) : value :=
  match get v k with Some x => x | None => VUndefined end.

(** [v[0]] on a value that is not nullish. *)
Definition index0 (v : value) : value :=
  match v with
  | VArr (x :: _) => x
  | VStr (String c _) => VStr (String c EmptyString)
  | VObj props => own_or_undefined "0" props
  | _ => VUndefined
  end.

(** [v?.[0]]. *)
Definition index0_opt (v : value) : value :=
  if nullish v then VUndefined else index0 v.

(** [v.length]; throws on [null] and [undefined]. *)
Definition length (v : value) : option value :=
  match v with
  | VUndefined | VNull => None
  | VArr l => Some (VNum (of_Z (Z.of_nat (List.length l))))
  | VStr s => Some (VNum (of_Z (Z.of_nat (String.length s))))
  | VObj props => Some (own_or_undefined "length" props)
  | _ => Some VUndefined
  end.

(** [v === 0]. *)
Definition is_zero (v : value) : bool :=
  match v with
  | VNum n => num_eq n (of_Z 0)
  | _ => false
  end.

(** *** Strings *)

Fixpoint prefix_of (p s : string) : bool :=
  match p, s with
  | EmptyString, _ => true
  | String a p', String b s' => Ascii.eqb a b && prefix_of p' s'
  | String _ _, EmptyString => false
  end.

(** [s.replace(/```json|```/g, "")]: one left-to-right scan; at each
    position the first alternative is tried first, a match is dropped and
    the scan resumes after it.  [skip] counts the characters of the current
    match still to drop. *)
Fixpoint strip_fences_from (skip : nat) (s : string) : string :=
  match s with
  | EmptyString => EmptyString
  | String c rest =>
      match skip with
      | S k => strip_fences_from k rest
      | O =>
          if prefix_of "```json" s then strip_fences_from 6 rest
          else if prefix_of "```" s then strip_fences_from 2 rest
          else String c (strip_fences_from 0 rest)
      end
  end.

Definition strip_fences (s : string) : string := strip_fences_from 0 s.

(** White space and line terminators among the code units below 256. *)
Definition is_space (c : ascii) : bool :=
  let n := nat_of_ascii c in
  (Nat.leb 9 n && Nat.leb n 13) || Nat.eqb n 32 || Nat.eqb n 160.

Fixpoint trim_start (s : string) : string :=
  match s with
  | String c rest => if is_space c then trim_start rest else s
  | EmptyString => EmptyString
  end.

Fixpoint trim_end (s : string) : string :=
  match s with
  | EmptyString => EmptyString
  | String c rest =>
      match trim_end rest with
      | EmptyString => if is_space c then EmptyString else String c EmptyString
      | t => String c t
      end
  end.

(** [s.trim()]. *)
Definition trim (s : string) : string := trim_end (trim_start s).

End JS.

(* ================================================================== *)
(** ** [JSON.parse]

    The panel is verified against an arbitrary parser (a parameter of the
    analysis below).  This module is a reference instance, used to run the
    analysis on concrete payloads: the JSON grammar of ECMA-404, with the
    duplicate-key rule of ECMAScript (the last value wins, at the position of
    the first occurrence).  A unicode escape above code unit 255 has no
    counterpart among the modelled strings and is refused. *)

Module JSON.
Import JS.

Definition is_ws (c : ascii) : bool :=
  match nat_of_ascii c with
  | 9 | 10 | 13 | 32 => true
  | _ => false
  end.

Fixpoint skip_ws (s : string) : string :=
  match s with
  | String c rest => if is_ws c then skip_ws rest else s
  | EmptyString => EmptyString
  end.

Definition digit (c : ascii) : option Z :=
  let n := nat_of_ascii c in
  if Nat.leb 48 n && Nat.leb n 57 then Some (Z.of_nat (n - 48)) else None.

Definition hex (c : ascii) : option nat :=
  let n := nat_of_ascii c in
  if Nat.leb 48 n && Nat.leb n 57 then Some (n - 48)
  else if Nat.leb 65 n && Nat.leb n 70 then Some (n - 55)
  else if Nat.leb 97 n && Nat.leb n 102 then Some (n - 87)
  else None.

(** The longest run of digits at the head of [s]: its value after [acc], how
    many digits it has, and what follows. *)
Fixpoint digits (acc : Z) (count : nat) (s : string) : Z * nat * string :=
  match s with
  | String c rest =>
      match digit c with
      | Some d => digits (10 * acc + d) (S count) rest
      | None => (acc, count, s)
      end
  | EmptyString => (acc, count, s)
  end.

Definition int_part (s : string) : option (Z * string) :=
  match s with
  | String "0" rest => Some (0%Z, rest)
  | _ =>
      match digits 0 0 s with
      | (_, O, _) => None
      | (z, _, rest) => Some (z, rest)
      end
  end.

Definition frac_part (s : string) : option (Z * nat * string) :=
  match s with
  | String "." rest =>
      match digits 0 0 rest with
      | (_, O, _) => None
      | r => Some r
      end
  | _ => Some (0%Z, O, s)
  end.

Definition exp_part (s : string) : option (Z * string) :=
  let unsigned (neg : bool) (t : string) :=
    match digits 0 0 t with
    | (_, O, _) => None
    | (e, _, rest) => Some (if neg then (- e)%Z else e, rest)
    end in
  match s with
  | String c rest =>
      if Ascii.eqb c "e" || Ascii.eqb c "E" then
        match rest with
        | String "-" t => unsigned true t
        | String "+" t => unsigned false t
        | _ => unsigned false rest
        end
      else Some (0%Z, s)
  | EmptyString => Some (0%Z, s)
  end.

Definition parse_number (s : string) : option (value * string) :=
  let (neg, s0) := match s with
                   | String "-" t => (true, t)
                   | _ => (false, s)
                   end in
  match int_part s0 with
  | None => None
  | Some (i, s1) =>
      match frac_part s1 with
      | None => None
      | Some (f, fcount, s2) =>
          match exp_part s2 with
          | None => None
          | Some (e, s3) =>
              let mantissa := (i * 10 ^ Z.of_nat fcount + f)%Z in
              let q := (inject_Z mantissa * Qpower (10 # 1) (e - Z.of_nat fcount))%Q in
              Some (VNum (Fin (Qred (if neg then - q else q))), s3)
          end
      end
  end.

Definition quote : ascii := ascii_of_nat 34.
Definition backslash : ascii := ascii_of_nat 92.

Definition simple_escape (c : ascii) : option ascii :=
  match nat_of_ascii c with
  | 34 => Some quote                 (* quotation mark *)
  | 92 => Some backslash             (* reverse solidus *)
  | 47 => Some (ascii_of_nat 47)     (* solidus *)
  | 98 => Some (ascii_of_nat 8)      (* b: backspace *)
  | 102 => Some (ascii_of_nat 12)    (* f: form feed *)
  | 110 => Some (ascii_of_nat 10)    (* n: line feed *)
  | 114 => Some (ascii_of_nat 13)    (* r: carriage return *)
  | 116 => Some (ascii_of_nat 9)     (* t: tab *)
  | _ => None
  end.

Definition unicode_escape (a b c d : ascii) : option ascii :=
  match hex a, hex b, hex c, hex d with
  | Some 0, Some 0, Some h, Some l => Some (ascii_of_nat (16 * h + l))
  | _, _, _, _ => None
  end.

Definition cons_char (c : ascii) (r : option (string * string)) : option (string * string) :=
  match r with
  | Some (t, rest) => Some (String c t, rest)
  | None => None
  end.

(** The characters of a string literal, after its opening quote. *)
Fixpoint parse_chars (s : string) : option (string * string) :=
  match s with
  | EmptyString => None
  | String c rest =>
      if Ascii.eqb c quote then Some (EmptyString, rest)
      else if Ascii.eqb c backslash then
        match rest with
        | String "u" (String h1 (String h2 (String h3 (String h4 rest')))) =>
            match unicode_escape h1 h2 h3 h4 with
            | Some ch => cons_char ch (parse_chars rest')
            | None => None
            end
        | String e rest' =>
            match simple_escape e with
            | Some ch => cons_char ch (parse_chars rest')
            | None => None
            end
        | EmptyString => None
        end
      else if Nat.ltb (nat_of_ascii c) 32 then None
      else cons_char c (parse_chars rest)
  end.

Definition literal (word : string) (v : value) (s : string) : option (value * string) :=
  if prefix_of word s
  then Some (v, substring (String.length word) (String.length s - String.length word) s)
  else None.

(** [CreateDataProperty]: a repeated key keeps its place and takes the new
    value. *)
Fixpoint define (k : string) (v : value) (props : list (string * value)) :
  list (string * value) :=
  match props with
  | [] => [(k, v)]
  | (k', v') :: rest =>
      if String.eqb k k' then (k', v) :: rest else (k', v') :: define k v rest
  end.

Definition parse_string (s : string) : option (value * string) :=
  match parse_chars s with
  | Some (str, r) => Some (VStr str, r)
  | None => None
  end.

Fixpoint parse_value (fuel : nat) (s : string) : option (value * string) :=
  match fuel with
  | O => None
  | S f =>
      match skip_ws s with
      | String c rest as t =>
          if Ascii.eqb c "n" then literal "null" VNull t
          else if Ascii.eqb c "t" then literal "true" (VBool true) t
          else if Ascii.eqb c "f" then literal "false" (VBool false) t
          else if Ascii.eqb c quote then parse_string rest
          else if Ascii.eqb c "[" then
            match skip_ws rest with
            | String "]" r => Some (VArr [], r)
            | r =>
                match parse_elements f r with
                | Some (l, r') => Some (VArr l, r')
                | None => None
                end
            end
          else if Ascii.eqb c "{" then
            match skip_ws rest with
            | String "}" r => Some (VObj [], r)
            | r =>
                match parse_members f r with
                | Some (m, r') =>
                    Some (VObj (fold_left (fun o kv => define (fst kv) (snd kv) o) m []), r')
                | None => None
                end
            end
          else parse_number t
      | EmptyString => None
      end
  end
with parse_elements (fuel : nat) (s : string) : option (list value * string) :=
  match fuel with
  | O => None
  | S f =>
      match parse_value f s with
      | None => None
      | Some (v, r) =>
          match skip_ws r with
          | String "," r' =>
              match parse_elements f r' with
              | Some (l, r'') => Some (v :: l, r'')
              | None => None
              end
          | String "]" r' => Some ([v], r')
          | _ => None
          end
      end
  end
with parse_members (fuel : nat) (s : string) : option (list (string * value) * string) :=
  match fuel with
  | O => None
  | S f =>
      match skip_ws s with
      | String c rest =>
          if negb (Ascii.eqb c quote) then None else
          match parse_chars rest with
          | None => None
          | Some (k, r) =>
              match skip_ws r with
              | String ":" r0 =>
                  match parse_value f r0 with
                  | None => None
                  | Some (v, r1) =>
                      match skip_ws r1 with
                      | String "," r2 =>
                          match parse_members f r2 with
                          | Some (m, r3) => Some ((k, v) :: m, r3)
                          | None => None
                          end
                      | String "}" r2 => Some ([(k, v)], r2)
                      | _ => None
                      end
                  end
              | _ => None
              end
          end
      | EmptyString => None
      end
  end.

(** [JSON.parse(text)]; [None] is the SyntaxError. *)
Definition parse (text : string) : option value :=
  match parse_value (2 * String.length text + 2) text with
  | Some (v, rest) =>
      match skip_ws rest with
      | EmptyString => Some v
      | _ => None
      end
  | None => None
  end.

End JSON.

(* ================================================================== *)
(** ** What a component returns

    The element tree, without the styling props ([sx], [variant], ...),
    which no claim reads. *)

Module React.

Inductive key : Type :=
| NoKey
| KeyStr (s : string)
| KeyIdx (i : nat).

#[local] Unset Elimination Schemes.
Inductive node : Type :=
| Text (s : string)                 (* a string child *)
| Number (n : JS.number)            (* a number child, shown in decimal *)
| Element (tag : string) (k : key) (children : list node).
#[local] Set Elimination Schemes.

(** The strings and numbers a tree shows, left to right. *)
Fixpoint leaves (n : node) : list node :=
  match n with
  | Element _ _ children => flat_map leaves children
  | leaf => [leaf]
  end.

End React.

(* ================================================================== *)
(** ** src/components/AiAssistantChat.tsx *)

Module AiAssistantChat.

(** Modelled from the spec: [SensorReading] is imported from [../types],
    which is not among the sources.  The spec's Reading is a timestamp, a
    temperature, an emissions level and a noise level; the field names are
    the ones the two components read. *)
Record SensorReading : Type := {
  datetime : string;
  temperature : JS.number;
  emissions : JS.number;
  noise : JS.number
}.

Module Info.
Record t : Type := {
  name : string;
  latitude : JS.number;
  longitude : JS.number;
  area : string
}.
End Info.

Inductive StationId : Type :=
| IdString (s : string)
| IdNumber (n : JS.number).

Record Station : Type := {
  id : StationId;
  info : Info.t;
  latestReading : option SensorReading
}.

Inductive ParameterKind : Type :=
| Temperature
| PM25Emissions
| Noise.

Definition parameter_text (p : ParameterKind) : string :=
  match p with
  | Temperature => "Temperature"
  | PM25Emissions => "PM 2.5 Emissions"
  | Noise => "Noise"
  end.

Record Suggestion : Type := {
  stationName : string;
  area : string;
  parameter : ParameterKind;
  value : JS.number;
  threshold : JS.number;
  suggestion : string
}.

(** The object a fallback suggestion is at run time. *)
Definition to_value (g : Suggestion) : JS.value :=
  JS.VObj [ ("stationName", JS.VStr (stationName g));
            ("area", JS.VStr (area g));
            ("parameter", JS.VStr (parameter_text (parameter g)));
            ("value", JS.VNum (value g));
            ("threshold", JS.VNum (threshold g));
            ("suggestion", JS.VStr (suggestion g)) ].

(** *** The panel's state (the three [useState] cells) *)

Record State : Type := {
  chatOpen : bool;
  suggestions : JS.value;
  loading : bool
}.

Definition initial : State :=
  {| chatOpen := false; suggestions := JS.VArr []; loading := false |}.

Definition setChatOpen (f : bool -> bool) (st : State) : State :=
  {| chatOpen := f (chatOpen st); suggestions := suggestions st; loading := loading st |}.

Definition setSuggestions (v : JS.value) (st : State) : State :=
  {| chatOpen := chatOpen st; suggestions := v; loading := loading st |}.

Definition setLoading (b : bool) (st : State) : State :=
  {| chatOpen := chatOpen st; suggestions := suggestions st; loading := b |}.

Definition toggleChat (st : State) : State := setChatOpen negb st.

(** *** The local evaluation (lines 77-110) *)

(** [s.latestReading?.field]: [None] is [undefined]. *)
Definition reading (field : SensorReading -> JS.number) (s : Station) : option JS.number :=
  option_map field (latestReading s).

(** The test [x > limit] of an [if], keeping the [x] that passed it:
    [undefined > limit] compares [NaN] and is false. *)
Definition exceeding (x : option JS.number) (limit : JS.number) : option JS.number :=
  match x with
  | Some v => if JS.gt v limit then Some v else None
  | None => None
  end.

(** The callback of [stations.map]; [None] is its [return null]. *)
Definition evaluate (s : Station) : option Suggestion :=
  match exceeding (reading temperature s) (JS.of_Z 30) with
  | Some v =>
      Some {| stationName := Info.name (info s);
              area := Info.area (info s);
              parameter := Temperature;
              value := v;
              threshold := JS.of_Z 30;
              suggestion := "Deploy cooling systems or improve ventilation." |}
  | None =>
  match exceeding (reading emissions s) (JS.of_Z 150) with
  | Some v =>
      Some {| stationName := Info.name (info s);
              area := Info.area (info s);
              parameter := PM25Emissions;
              value := v;
              threshold := JS.of_Z 150;
              suggestion :=
                "Implement carbon capture technologies or reduce operational hours." |}
  | None =>
  match exceeding (reading noise s) (JS.of_Z 85) with
  | Some v =>
      Some {| stationName := Info.name (info s);
              area := Info.area (info s);
              parameter := Noise;
              value := v;
              threshold := JS.of_Z 85;
              suggestion :=
                "Install noise barriers or schedule loud activities during off-peak hours." |}
  | None => None
  end end end.

(** [.filter(Boolean)] on a list of objects and [null]s. *)
Fixpoint filter_Boolean {A : Type} (l : list (option A)) : list A :=
  match l with
  | [] => []
  | Some x :: rest => x :: filter_Boolean rest
  | None :: rest => filter_Boolean rest
  end.

Definition localFallback (stations : list Station) : list Suggestion :=
  filter_Boolean (map evaluate stations).

(** *** The request (lines 44-115) *)

(** What the endpoint does with the request. *)
Inductive Remote : Type :=
| Rejects                                        (* [fetch] throws *)
| Responds (ok : bool) (body : option JS.value). (* [body = None]: [response.json()] throws *)

Inductive Outcome : Type :=
| Resolved (st : State)    (* the promise is fulfilled *)
| Rejected (st : State).   (* an exception left the function *)

Section Analysis.

(** [JSON.parse]; [None] is its SyntaxError. *)
Variable JSON_parse : string -> option JS.value.

(** The condition of line 61. *)
Definition isSuggestionArray (apiData : JS.value) : bool :=
  JS.isArray apiData && JS.truthy (JS.get_opt (JS.index0 apiData) "stationName").

(** Lines 64-70; [None] is an exception raised on the way: [apiData] is
    [null], or [content] is not a string and has no [replace] to call. *)
Definition fromEnvelope (apiData : JS.value) : option JS.value :=
  match JS.get apiData "choices" with
  | None => None
  | Some choices =>
      let found := JS.get_opt (JS.get_opt (JS.index0_opt choices) "message") "content" in
      let content := if JS.truthy found then found else JS.VStr "" in
      match content with
      | JS.VStr text =>
          let cleanContent := JS.trim (JS.strip_fences text) in
          match JSON_parse cleanContent with
          | Some parsed => Some parsed
          | None => Some (JS.VArr [])
          end
      | _ => None
      end
  end.

(** The outer [try] block (lines 50-71); [None] is a jump to its [catch]. *)
Definition tryBlock (r : Remote) : option JS.value :=
  match r with
  | Rejects => None
  | Responds ok body =>
      if negb ok then None
      else
        match body with
        | None => None
        | Some apiData =>
            if isSuggestionArray apiData then Some apiData
            else fromEnvelope apiData
        end
  end.

Definition analyzeStationsWithAI (stations : list Station) (r : Remote) (st : State) : Outcome :=
  let st := setSuggestions (JS.VArr []) (setLoading true st) in
  let finalSuggestions :=
    match tryBlock r with
    | Some v => v
    | None => JS.VArr []
    end in
  match JS.length finalSuggestions with
  | None => Rejected st
  | Some len =>
      let finalSuggestions :=
        if JS.is_zero len
        then JS.VArr (map to_value (localFallback stations))
        else finalSuggestions in
      Resolved (setLoading false (setSuggestions finalSuggestions st))
  end.

End Analysis.

(** *** The grouped display (lines 199-248) *)

(** The accumulator of [reduce]: an object whose own properties are station
    names, kept in creation order. *)
Definition Groups : Type := list (string * list Suggestion).

(** The properties every object inherits from [Object.prototype]; each is
    a function or an object, hence truthy, and none has a [push]. *)
Definition Object_prototype : list string :=
  [ "constructor"; "hasOwnProperty"; "isPrototypeOf"; "propertyIsEnumerable";
    "toLocaleString"; "toString"; "valueOf"; "__proto__";
    "__defineGetter__"; "__defineSetter__"; "__lookupGetter__"; "__lookupSetter__" ].

Definition inherited (k : string) : bool :=
  existsb (String.eqb k) Object_prototype.

Fixpoint has_own (k : string) (acc : Groups) : bool :=
  match acc with
  | [] => false
  | (k', _) :: rest => String.eqb k k' || has_own k rest
  end.

(** [acc[k].push(curr)] on an own property. *)
Fixpoint push (k : string) (curr : Suggestion) (acc : Groups) : Groups :=
  match acc with
  | [] => []
  | (k', items) :: rest =>
      if String.eqb k k' then (k', items ++ [curr]) :: rest
      else (k', items) :: push k curr rest
  end.

(** The callback of [reduce] (lines 203-205).  An own property is an array,
    which is truthy even when empty.  An inherited one is truthy as well, so
    it is not replaced, and calling its missing [push] throws. *)
Definition reducer (acc : Groups) (curr : Suggestion) : option Groups :=
  let k := stationName curr in
  if has_own k acc then Some (push k curr acc)
  else if inherited k then None
  else Some (push k curr (acc ++ [(k, [])])).

Fixpoint reduce (l : list Suggestion) (acc : Groups) : option Groups :=
  match l with
  | [] => Some acc
  | curr :: rest =>
      match reducer acc curr with
      | Some acc' => reduce rest acc'
      | None => None
      end
  end.

Fixpoint decimal (acc : N) (s : string) : option N :=
  match s with
  | EmptyString => Some acc
  | String c rest =>
      match JSON.digit c with
      | Some d => decimal (10 * acc + Z.to_N d) rest
      | None => None
      end
  end.

(** An array index: the canonical decimal form of an integer below
    [2^32 - 1]. *)
Definition array_index (k : string) : option N :=
  match k with
  | EmptyString => None
  | String "0" EmptyString => Some 0%N
  | String "0" _ => None
  | _ =>
      match decimal 0 k with
      | Some n => if N.ltb n (2 ^ 32 - 1) then Some n else None
      | None => None
      end
  end.

Definition is_index (k : string) : bool :=
  match array_index k with Some _ => true | None => false end.

Definition index_of (k : string) : N :=
  match array_index k with Some n => n | None => 0%N end.

Fixpoint insert_by_index {A : Type} (e : string * A) (l : list (string * A)) :
  list (string * A) :=
  match l with
  | [] => [e]
  | e' :: rest =>
      if N.leb (index_of (fst e)) (index_of (fst e')) then e :: l
      else e' :: insert_by_index e rest
  end.

Fixpoint sort_by_index {A : Type} (l : list (string * A)) : list (string * A) :=
  match l with
  | [] => []
  | e :: rest => insert_by_index e (sort_by_index rest)
  end.

(** The order in which an object lists its own properties: array indices
    by ascending value, then the other names in creation order. *)
Definition own_property_order {A : Type} (o : list (string * A)) : list (string * A) :=
  sort_by_index (filter (fun e => is_index (fst e)) o)
  ++ filter (fun e => negb (is_index (fst e))) o.

Definition Object_entries (o : Groups) : list (string * list Suggestion) :=
  own_property_order o.

Fixpoint mapi_from {A B : Type} (i : nat) (f : A -> nat -> B) (l : list A) : list B :=
  match l with
  | [] => []
  | x :: rest => f x i :: mapi_from (S i) f rest
  end.

Definition strong (label : string) : React.node :=
  React.Element "strong" React.NoKey [React.Text label].

(** Lines 233-244. *)
Definition suggestionBox (s : Suggestion) (idx : nat) : React.node :=
  React.Element "Box" (React.KeyIdx idx)
    [ React.Element "Typography" React.NoKey
        [ strong "Parameter:"; React.Text " "; React.Text (parameter_text (parameter s)) ];
      React.Element "Typography" React.NoKey
        [ strong "Value:"; React.Text " "; React.Number (value s);
          React.Text " (Threshold:"; React.Text " "; React.Number (threshold s);
          React.Text ")" ];
      React.Element "Typography" React.NoKey
        [ strong "Suggestion:"; React.Text " "; React.Text (suggestion s) ] ].

(** [stationSuggestions[0]?.area || ""] (line 210). *)
Definition headerArea (stationSuggestions : list Suggestion) : string :=
  match stationSuggestions with
  | first :: _ => if String.eqb (area first) "" then "" else area first
  | [] => ""
  end.

(** The header (lines 222-230): the name, a space, and [area && `- ${area}`]. *)
Definition header (stationName : string) (stationSuggestions : list Suggestion) : React.node :=
  let area := headerArea stationSuggestions in
  React.Element "Typography" React.NoKey
    [ React.Text stationName; React.Text " ";
      React.Text (if String.eqb area "" then "" else "- " ++ area) ].

(** The callback of [.map] over the entries (lines 209-247). *)
Definition groupBox (entry : string * list Suggestion) : React.node :=
  let (stationName, stationSuggestions) := entry in
  React.Element "Box" (React.KeyStr stationName)
    (header stationName stationSuggestions :: mapi_from 0 suggestionBox stationSuggestions).

(** The expression of lines 199-248; [Some []] is the [false] that shows
    nothing, [None] an exception during rendering. *)
Definition renderSuggestions (suggestions : list Suggestion) : option (list React.node) :=
  if Nat.ltb 0 (List.length suggestions) then
    match reduce suggestions [] with
    | Some acc => Some (map groupBox (Object_entries acc))
    | None => None
    end
  else Some [].

(** *** The component's output (lines 117-281) *)









End AiAssistantChat.

(* ================================================================== *)
(** ** src/components/Map.tsx *)

Module StationMap.

Record Reading : Type := {
  datetime : string;
  temperature : JS.number;
  emissions : JS.number;
  noise : JS.number
}.

Module Info.
Record t : Type := {
  latitude : JS.number;
  longitude : JS.number;
  name : string
}.
End Info.

Record Station : Type := {
  id : string;
  info : Info.t;
  latestReading : option Reading
}.

Record Marker : Type := {
  key : string;
  position : JS.number * JS.number;
  popup : list React.node          (* the children of [Popup] *)
}.

Record MapContainer : Type := {
  center : JS.number * JS.number;
  zoom : Z;
  scrollWheelZoom : bool;
  tiles : string;                  (* the [url] of [TileLayer] *)
  markers : list Marker
}.

Definition degree : ascii := ascii_of_nat 176.

Section Rendering.

(** [text => new Date(text).toLocaleString()]: the host's parsing and
    formatting of a timestamp. *)
Variable toLocaleString : string -> string.

Definition paragraph (label : string) (shown : JS.number) (suffix : string) : React.node :=
  React.Element "p" React.NoKey
    [ React.Element "strong" React.NoKey [React.Text label];
      React.Text " "; React.Number shown; React.Text suffix ].

Definition small (children : list React.node) : React.node :=
  React.Element "small" React.NoKey children.

(** Lines 58-71. *)
Definition readingBlock (station : Station) (r : Reading) : React.node :=
  React.Element "div" React.NoKey
    [ paragraph "Heat:" (temperature r) (String degree "C");
      paragraph "Emissions:" (emissions r) " ppm";
      paragraph "Noise:" (noise r) " dB";
      React.Element "div" React.NoKey
        [ small [React.Text "Latitude: "; React.Number (Info.latitude (info station))];
          small [React.Text "Longitude: "; React.Number (Info.longitude (info station))];
          small [React.Text "Last updated:"; React.Text " ";
                 React.Text (toLocaleString (datetime r))] ] ].

(** Lines 50-76. *)
Definition marker (station : Station) : Marker :=
  {| key := id station;
     position := (Info.latitude (info station), Info.longitude (info station));
     popup :=
       [ React.Element "h3" React.NoKey [React.Text (Info.name (info station))];
         match latestReading station with
         | Some r => readingBlock station r
         | None => React.Element "p" React.NoKey [React.Text "No reading available"]
         end ] |}.

Definition Map (stations : list Station) : MapContainer :=
  {| center := (JS.Fin (3273 # 100), JS.Fin (7486 # 100));
     zoom := 11;
     scrollWheelZoom := true;
     tiles := "https://{s}.tile.openstreetmap.org/{z}/{x}/{y}.png";
     markers := map marker stations |}.

End Rendering.

End StationMap.

(** Payloads are written with an apostrophe for the quotation mark. *)
Fixpoint dq (s : string) : string :=
  match s with
  | EmptyString => EmptyString
  | String c rest => String (if Ascii.eqb c "'" then JSON.quote else c) (dq rest)
  end.

(* ================================================================== *)
(** ** The specification's vocabulary

    The definitions of this module follow the words of the specification;
    the theorems below compare them with the code. *)

Module Spec.
Import AiAssistantChat.

(** "thresholds are fixed constants (temperature 30, emissions 150,
    noise 85)". *)
Definition limit (p : ParameterKind) : JS.number :=
  match p with
  | Temperature => JS.of_Z 30
  | PM25Emissions => JS.of_Z 150
  | Noise => JS.of_Z 85
  end.

(** "the named parameter's reading". *)
Definition measured (p : ParameterKind) (r : SensorReading) : JS.number :=
  match p with
  | Temperature => temperature r
  | PM25Emissions => emissions r
  | Noise => noise r
  end.

Definition advice (p : ParameterKind) : string :=
  match p with
  | Temperature => "Deploy cooling systems or improve ventilation."
  | PM25Emissions => "Implement carbon capture technologies or reduce operational hours."
  | Noise => "Install noise barriers or schedule loud activities during off-peak hours."
  end.

Definition exceeded (r : SensorReading) (p : ParameterKind) : bool :=
  JS.gt (measured p r) (limit p).

(** "temperature, then emissions, then noise ..., in that priority order
    (the first exceeded threshold wins)". *)
Definition first_exceeded (r : SensorReading) : option ParameterKind :=
  find (exceeded r) [Temperature; PM25Emissions; Noise].

Definition suggestion_for (s : Station) (r : SensorReading) (p : ParameterKind) : Suggestion :=
  {| stationName := Info.name (info s);
     area := Info.area (info s);
     parameter := p;
     value := measured p r;
     threshold := limit p;
     suggestion := advice p |}.

(** "emit at most one suggestion per station ...  Stations with no reading,
    or with no threshold exceeded, yield no suggestion." *)
Definition suggestions_of (s : Station) : list Suggestion :=
  match latestReading s with
  | Some r =>
      match first_exceeded r with
      | Some p => [suggestion_for s r p]
      | None => []
      end
  | None => []
  end.

(** "use local fallback": the state the panel ends in. *)
Definition fallback_state (stations : list Station) (st : State) : State :=
  {| chatOpen := chatOpen st;
     suggestions := JS.VArr (map to_value (localFallback stations));
     loading := false |}.

(** "an array whose first element has a truthy stationName field". *)
Inductive has_stationName : JS.value -> Prop :=
| has_stationName_intro (props : list (string * JS.value)) (v : JS.value) :
    JS.own "stationName" props = Some v ->
    JS.truthy v = true ->
    has_stationName (JS.VObj props).

(** "order of first appearance": each name once, where it first occurs. *)
Fixpoint first_appearance (names : list string) : list string :=
  match names with
  | [] => []
  | n :: rest => n :: filter (fun m => negb (String.eqb m n)) (first_appearance rest)
  end.

(** "suggestions sharing a stationName". *)
Definition sharing (k : string) (l : list Suggestion) : list Suggestion :=
  filter (fun g => String.eqb (stationName g) k) l.

(** The name occurs in the list. *)
Definition mem (k : string) (l : list string) : bool := existsb (String.eqb k) l.

(** "ascending numeric index order". *)
Definition ascending (a b : string) : Prop :=
  (AiAssistantChat.index_of a <= AiAssistantChat.index_of b)%N.

(** The station name a rendered group stands under. *)
Definition group_name (box : React.node) : string :=
  match box with
  | React.Element _ (React.KeyStr k) _ => k
  | _ => ""
  end.

(** What the specification groups: per name in order of first appearance,
    the suggestions sharing it. *)
Definition groups_of (l : list Suggestion) : list (string * list Suggestion) :=
  map (fun k => (k, sharing k l)) (first_appearance (map stationName l)).

(** A code fence marker occurs in the text. *)
Fixpoint has_fence (s : string) : bool :=
  match s with
  | EmptyString => false
  | String _ rest => JS.prefix_of "```" s || has_fence rest
  end.

(** The text has no backtick. *)
Fixpoint plain (s : string) : bool :=
  match s with
  | EmptyString => true
  | String c rest => negb (Ascii.eqb c "`") && plain rest
  end.

(** The text is white space only. *)
Fixpoint blank (s : string) : bool :=
  match s with
  | EmptyString => true
  | String c rest => JS.is_space c && blank rest
  end.

(** The station has a reading that exceeds at least one threshold. *)
Definition alerted (s : Station) : bool :=
  match latestReading s with
  | Some r => existsb (exceeded r) [Temperature; PM25Emissions; Noise]
  | None => false
  end.

(** The outcome seen through a change of the panel's state. *)
Definition map_outcome (f : State -> State) (o : Outcome) : Outcome :=
  match o with
  | Resolved st => Resolved (f st)
  | Rejected st => Rejected (f st)
  end.

(** The item boxes of a rendered group: its children after the header. *)
Definition box_items (box : React.node) : list React.node :=
  match box with
  | React.Element _ _ (_ :: items) => items
  | _ => []
  end.

End Spec.

(* ================================================================== *)
(** ** Sample data *)

Module Sample.
Import AiAssistantChat.

Definition station (n a : string) (r : option SensorReading) : Station :=
  {| id := IdString n;
     info := {| Info.name := n; Info.latitude := JS.Fin (3273 # 100);
                Info.longitude := JS.Fin (7486 # 100); Info.area := a |};
     latestReading := r |}.

Definition at_noon (t e n : Z) : SensorReading :=
  {| datetime := "2025-01-01T12:00:00Z";
     temperature := JS.of_Z t; emissions := JS.of_Z e; noise := JS.of_Z n |}.

Definition hot : Station := station "A" "Gandhi Nagar" (Some (at_noon 35 10 20)).
Definition smoky : Station := station "B" "Bahu Fort" (Some (at_noon 30 200 90)).
Definition calm : Station := station "C" "Trikuta Nagar" (Some (at_noon 21 40 55)).
Definition silent : Station := station "D" "Channi" None.
Definition all_over : Station := station "E" "Satwari" (Some (at_noon 41 180 99)).

Definition noisy (n a : string) : Suggestion :=
  {| stationName := n; area := a; parameter := Noise;
     value := JS.of_Z 90; threshold := JS.of_Z 85; suggestion := Spec.advice Noise |}.

(** A chat-completion envelope around [content]. *)
Definition envelope (content : string) : JS.value :=
  JS.VObj [("choices",
            JS.VArr [JS.VObj [("message", JS.VObj [("content", JS.VStr content)])]])].

End Sample.

(* ================================================================== *)
(** ** Numbers *)

Section Numbers.

Lemma le_not_gt (a b : JS.number) : JS.le a b = true -> JS.gt a b = false.
Proof.
  unfold JS.gt.
  destruct a, b; simpl; intro H; try discriminate; try reflexivity;
    now apply negb_true_iff in H.
Qed.

Lemma gt_NaN (b : JS.number) : JS.gt JS.NaN b = false.
Proof. now destruct b. Qed.

End Numbers.

(* ================================================================== *)
(** ** The local evaluation *)

Section Fallback.
Import AiAssistantChat.

Lemma filter_Boolean_app {A : Type} (l1 l2 : list (option A)) :
  filter_Boolean (l1 ++ l2) = filter_Boolean l1 ++ filter_Boolean l2.
Proof.
  induction l1 as [| [x|] l1 IH]; simpl; [reflexivity | now rewrite IH | exact IH].
Qed.

Lemma localFallback_app (l1 l2 : list Station) :
  localFallback (l1 ++ l2) = localFallback l1 ++ localFallback l2.
Proof. unfold localFallback. now rewrite map_app, filter_Boolean_app. Qed.

Lemma localFallback_cons (s : Station) (l : list Station) :
  localFallback (s :: l) = localFallback [s] ++ localFallback l.
Proof. exact (localFallback_app [s] l). Qed.

Lemma localFallback_middle (before after : list Station) (s : Station) :
  localFallback (before ++ s :: after)
  = localFallback before ++ localFallback [s] ++ localFallback after.
Proof. now rewrite localFallback_app, localFallback_cons. Qed.

(** The code's cascade of [if]s is the specification's priority search. *)
Lemma evaluate_spec (s : Station) :
  localFallback [s] = Spec.suggestions_of s.
Proof.
  unfold localFallback, Spec.suggestions_of. cbn [map filter_Boolean].
  unfold evaluate, reading.
  destruct (latestReading s) as [r|]; cbn [option_map exceeding]; [| reflexivity].
  unfold Spec.first_exceeded; cbn [find]; unfold Spec.exceeded.
  cbn [Spec.measured Spec.limit].
  destruct (JS.gt (temperature r) (JS.of_Z 30)); [reflexivity |].
  destruct (JS.gt (emissions r) (JS.of_Z 150)); [reflexivity |].
  destruct (JS.gt (noise r) (JS.of_Z 85)); reflexivity.
Qed.

Lemma localFallback_flat (stations : list Station) :
  localFallback stations = flat_map Spec.suggestions_of stations.
Proof.
  induction stations as [| s l IH]; [reflexivity |].
  rewrite localFallback_cons, evaluate_spec, IH. reflexivity.
Qed.

Lemma suggestions_of_length (s : Station) : List.length (Spec.suggestions_of s) <= 1.
Proof.
  unfold Spec.suggestions_of.
  destruct (latestReading s) as [r|]; [destruct (Spec.first_exceeded r) |]; simpl; lia.
Qed.

End Fallback.

(* ================================================================== *)
(** ** The request *)

Section Request.
Import AiAssistantChat.

Variable JSON_parse : string -> option JS.value.

(** The station list reaches the outcome through the fallback only. *)
Lemma analyze_ext (l1 l2 : list Station) (r : Remote) (st : State) :
  localFallback l1 = localFallback l2 ->
  analyzeStationsWithAI JSON_parse l1 r st = analyzeStationsWithAI JSON_parse l2 r st.
Proof. intro H. unfold analyzeStationsWithAI. now rewrite H. Qed.

(** Whatever reaches the outer [catch] ends in the fallback. *)
Lemma analyze_caught (stations : list Station) (r : Remote) (st : State) :
  tryBlock JSON_parse r = None ->
  analyzeStationsWithAI JSON_parse stations r st
  = Resolved (Spec.fallback_state stations st).
Proof. intro H. unfold analyzeStationsWithAI. now rewrite H. Qed.

(** The failures the two [catch] blocks do absorb: the request throws, the
    status is not ok, the body is not JSON, the body is [null], or the text
    of the envelope does not parse. *)
Lemma absorbed_failures (stations : list Station) (body : option JS.value)
  (text : string) (st : State) :
  let fallback := Resolved (Spec.fallback_state stations st) in
  analyzeStationsWithAI JSON_parse stations Rejects st = fallback
  /\ analyzeStationsWithAI JSON_parse stations (Responds false body) st = fallback
  /\ analyzeStationsWithAI JSON_parse stations (Responds true None) st = fallback
  /\ analyzeStationsWithAI JSON_parse stations (Responds true (Some JS.VNull)) st
     = fallback
  /\ (JSON_parse (JS.trim (JS.strip_fences text)) = None ->
      analyzeStationsWithAI JSON_parse stations
        (Responds true (Some (Sample.envelope text))) st
      = fallback).
Proof.
  cbv zeta. repeat split; try (apply analyze_caught; reflexivity).
  intro H. unfold analyzeStationsWithAI, tryBlock, fromEnvelope. cbn.
  destruct (String.eqb text "") eqn:E; cbn.
  - apply String.eqb_eq in E. subst text. cbn in H. now rewrite H.
  - now rewrite H.
Qed.

(** So does an empty array, wherever it comes from. *)
Lemma analyze_empty (stations : list Station) (r : Remote) (st : State) :
  tryBlock JSON_parse r = Some (JS.VArr []) ->
  analyzeStationsWithAI JSON_parse stations r st
  = Resolved (Spec.fallback_state stations st).
Proof. intro H. unfold analyzeStationsWithAI. now rewrite H. Qed.

(** An array has no [choices]: the envelope path reads the empty text. *)
Lemma fromEnvelope_array (elems : list JS.value) :
  fromEnvelope JSON_parse (JS.VArr elems)
  = Some (match JSON_parse "" with Some parsed => parsed | None => JS.VArr [] end).
Proof. unfold fromEnvelope. cbn. now destruct (JSON_parse ""). Qed.

Lemma isSuggestionArray_spec (apiData : JS.value) :
  isSuggestionArray apiData = true
  <-> exists first rest, apiData = JS.VArr (first :: rest) /\ Spec.has_stationName first.
Proof.
  unfold isSuggestionArray. split.
  - destruct apiData as [ | | | | | [| first rest] | ]; try discriminate.
    cbn [JS.isArray JS.index0 andb]. intro H. exists first, rest. split; [reflexivity |].
    destruct first as [ | | | | | | props]; try discriminate.
    cbn [JS.get_opt JS.get] in H. unfold JS.own_or_undefined in H.
    destruct (JS.own "stationName" props) as [v|] eqn:Hv; [| discriminate].
    now apply (Spec.has_stationName_intro props v).
  - intros (first & rest & -> & Hf). destruct Hf as [props v Hv Ht].
    cbn [JS.isArray JS.index0 andb JS.get_opt JS.get]. unfold JS.own_or_undefined.
    now rewrite Hv.
Qed.

Lemma length_cons_not_zero (first : JS.value) (rest : list JS.value) :
  exists len, JS.length (JS.VArr (first :: rest)) = Some len /\ JS.is_zero len = false.
Proof.
  eexists. split; [reflexivity |].
  cbn [JS.is_zero JS.num_eq JS.of_Z List.length].
  unfold Qeq_bool. cbn [Qnum Qden inject_Z]. rewrite Z.mul_1_r.
  rewrite Nat2Z.inj_succ. apply Z.eqb_neq. lia.
Qed.

(** A non-empty array that passes line 61 is displayed as it is. *)
Lemma analyze_accepted (stations : list Station) (first : JS.value)
  (rest : list JS.value) (st : State) :
  isSuggestionArray (JS.VArr (first :: rest)) = true ->
  analyzeStationsWithAI JSON_parse stations
    (Responds true (Some (JS.VArr (first :: rest)))) st
  = Resolved {| chatOpen := chatOpen st;
                suggestions := JS.VArr (first :: rest);
                loading := false |}.
Proof.
  intro H. unfold analyzeStationsWithAI, tryBlock. cbn [negb]. rewrite H.
  destruct (length_cons_not_zero first rest) as (len & -> & ->). reflexivity.
Qed.

End Request.

(* ================================================================== *)
(** ** Grouping by station name *)

Section Grouping.
Import AiAssistantChat.
Import Spec.

Lemma mem_In (k : string) (l : list string) : mem k l = true <-> In k l.
Proof.
  unfold mem. rewrite existsb_exists. split.
  - intros (x & Hx & E). apply String.eqb_eq in E. now subst.
  - intro H. exists k. split; [exact H | apply String.eqb_refl].
Qed.

Lemma mem_false (k : string) (l : list string) : mem k l = false <-> ~ In k l.
Proof. rewrite <- mem_In. now destruct (mem k l). Qed.

Lemma first_appearance_In (k : string) (l : list string) :
  In k (Spec.first_appearance l) <-> In k l.
Proof.
  induction l as [| n rest IH]; [reflexivity |].
  cbn [Spec.first_appearance In]. rewrite filter_In, IH, negb_true_iff, String.eqb_neq.
  destruct (string_dec n k) as [-> | Hne]; [tauto |].
  split; [tauto |]. intros [H | H]; [tauto | right; split; congruence].
Qed.

Lemma first_appearance_NoDup (l : list string) : NoDup (Spec.first_appearance l).
Proof.
  induction l as [| n rest IH]; [constructor |].
  cbn [Spec.first_appearance]. constructor.
  - rewrite filter_In, negb_true_iff, String.eqb_neq. tauto.
  - now apply NoDup_filter.
Qed.

Lemma first_appearance_snoc (l : list string) (n : string) :
  Spec.first_appearance (l ++ [n])
  = if mem n l then Spec.first_appearance l else Spec.first_appearance l ++ [n].
Proof.
  induction l as [| a rest IH]; [reflexivity |].
  cbn [app Spec.first_appearance]. rewrite IH. unfold mem. cbn [existsb].
  fold (mem n rest).
  destruct (String.eqb n a) eqn:E; cbn [orb].
  - apply String.eqb_eq in E. subst a.
    destruct (mem n rest); [reflexivity |].
    rewrite filter_app. cbn [filter]. rewrite String.eqb_refl. cbn [negb].
    now rewrite app_nil_r.
  - destruct (mem n rest); [reflexivity |].
    rewrite filter_app. cbn [filter]. rewrite E. reflexivity.
Qed.

Lemma sharing_snoc (k : string) (l : list Suggestion) (g : Suggestion) :
  Spec.sharing k (l ++ [g])
  = Spec.sharing k l ++ (if String.eqb (stationName g) k then [g] else []).
Proof. unfold Spec.sharing. now rewrite filter_app. Qed.

Lemma sharing_none (k : string) (l : list Suggestion) :
  ~ In k (map stationName l) -> Spec.sharing k l = [].
Proof.
  induction l as [| g rest IH]; [reflexivity |].
  cbn [map In Spec.sharing filter]. intro H.
  destruct (String.eqb (stationName g) k) eqn:E.
  - apply String.eqb_eq in E. tauto.
  - apply IH. tauto.
Qed.

Lemma sharing_some (k : string) (l : list Suggestion) :
  In k (map stationName l) -> Spec.sharing k l <> [].
Proof.
  rewrite in_map_iff. intros (g & E & Hg) H.
  assert (Hin : In g (Spec.sharing k l)).
  { apply filter_In. split; [exact Hg |]. now apply String.eqb_eq. }
  rewrite H in Hin. contradiction.
Qed.

Lemma has_own_keys (k : string) (f : string -> list Suggestion) (ks : list string) :
  has_own k (map (fun k' => (k', f k')) ks) = mem k ks.
Proof.
  induction ks as [| a rest IH]; [reflexivity |].
  cbn [map has_own]. rewrite IH. reflexivity.
Qed.

Lemma push_absent (k : string) (g : Suggestion) (acc : Groups) :
  has_own k acc = false -> push k g acc = acc.
Proof.
  induction acc as [| [k' items] rest IH]; [reflexivity |].
  cbn [has_own push]. intro H. apply orb_false_iff in H. destruct H as [E H].
  rewrite E, IH by exact H. reflexivity.
Qed.

Lemma push_fresh (k : string) (g : Suggestion) (items : list Suggestion) (acc : Groups) :
  has_own k acc = false ->
  push k g (acc ++ [(k, items)]) = acc ++ [(k, items ++ [g])].
Proof.
  induction acc as [| [k' its] rest IH]; cbn [app has_own push].
  - now rewrite String.eqb_refl.
  - intro H. apply orb_false_iff in H. destruct H as [E H].
    rewrite E, IH by exact H. reflexivity.
Qed.

(** On distinct keys, [push] extends the one group that carries the name. *)
Lemma push_keys (k : string) (g : Suggestion) (f : string -> list Suggestion)
  (ks : list string) :
  NoDup ks ->
  push k g (map (fun k' => (k', f k')) ks)
  = map (fun k' => (k', f k' ++ (if String.eqb k k' then [g] else []))) ks.
Proof.
  induction 1 as [| a rest Ha Hnd IH]; [reflexivity |].
  cbn [map push]. destruct (String.eqb k a) eqn:E.
  - f_equal. apply map_ext_in. intros b Hb.
    apply String.eqb_eq in E. subst a.
    destruct (String.eqb k b) eqn:E'; [| now rewrite app_nil_r].
    apply String.eqb_eq in E'. subst b. destruct (Ha Hb).
  - rewrite app_nil_r. now rewrite IH.
Qed.

(** One step of the code's [reduce] is one more suggestion in the
    specification's groups. *)
Lemma reducer_groups_of (l : list Suggestion) (g : Suggestion) :
  inherited (stationName g) = false ->
  reducer (Spec.groups_of l) g = Some (Spec.groups_of (l ++ [g])).
Proof.
  intro Hin. unfold reducer, Spec.groups_of at 1.
  rewrite has_own_keys.
  unfold Spec.groups_of. rewrite map_app. cbn [map].
  rewrite first_appearance_snoc.
  assert (M : mem (stationName g) (Spec.first_appearance (map stationName l))
              = mem (stationName g) (map stationName l)).
  { apply eq_true_iff_eq. now rewrite !mem_In, first_appearance_In. }
  rewrite M. destruct (mem (stationName g) (map stationName l)) eqn:Hm.
  - f_equal. rewrite push_keys by apply first_appearance_NoDup.
    apply map_ext. intro k. rewrite sharing_snoc. reflexivity.
  - rewrite Hin. f_equal.
    rewrite push_fresh by (rewrite has_own_keys; now rewrite M).
    rewrite map_app. cbn [map app]. f_equal.
    + apply map_ext_in. intros k Hk. rewrite sharing_snoc.
      destruct (String.eqb (stationName g) k) eqn:E; [| now rewrite app_nil_r].
      apply String.eqb_eq in E. subst k.
      rewrite first_appearance_In in Hk. apply mem_false in Hm. contradiction.
    + rewrite sharing_snoc, String.eqb_refl.
      rewrite sharing_none by now apply mem_false. reflexivity.
Qed.

Lemma reduce_snoc (l : list Suggestion) (g : Suggestion) (acc : Groups) :
  reduce (l ++ [g]) acc
  = match reduce l acc with
    | Some acc' => reducer acc' g
    | None => None
    end.
Proof.
  revert acc. induction l as [| a rest IH]; intro acc; cbn [app reduce].
  - now destruct (reducer acc g).
  - destruct (reducer acc a); [apply IH | reflexivity].
Qed.

(** The code's accumulation computes the specification's groups. *)
Lemma reduce_groups_of (l : list Suggestion) :
  Forall (fun g => inherited (stationName g) = false) l ->
  reduce l [] = Some (Spec.groups_of l).
Proof.
  induction l as [| g l IH] using rev_ind; [reflexivity |].
  intro H. apply Forall_app in H. destruct H as [Hl Hg].
  rewrite reduce_snoc, IH by exact Hl.
  apply reducer_groups_of. now inversion Hg.
Qed.

End Grouping.

(* ================================================================== *)
(** ** The order of an object's own properties *)

Section PropertyOrder.
Import AiAssistantChat.
Import Spec.

Context {A : Type}.

Lemma insert_by_index_perm (e : string * A) (l : list (string * A)) :
  Permutation (insert_by_index e l) (e :: l).
Proof.
  induction l as [| a rest IH]; cbn [insert_by_index]; [reflexivity |].
  destruct (N.leb (index_of (fst e)) (index_of (fst a))); [reflexivity |].
  rewrite IH. apply perm_swap.
Qed.

Lemma sort_by_index_perm (l : list (string * A)) : Permutation (sort_by_index l) l.
Proof.
  induction l as [| e rest IH]; cbn [sort_by_index]; [reflexivity |].
  rewrite insert_by_index_perm. now apply perm_skip.
Qed.

Lemma insert_by_index_sorted (e : string * A) (l : list (string * A)) :
  StronglySorted ascending (map fst l) ->
  StronglySorted ascending (map fst (insert_by_index e l)).
Proof.
  induction l as [| a rest IH]; cbn [insert_by_index map]; intro H.
  - repeat constructor.
  - apply StronglySorted_inv in H. destruct H as [Hs Ha].
    destruct (N.leb (index_of (fst e)) (index_of (fst a))) eqn:E; cbn [map].
    + apply N.leb_le in E. constructor; [now constructor |].
      constructor; [exact E |].
      eapply Forall_impl; [| exact Ha]. unfold ascending. intros b Hb. lia.
    + apply N.leb_gt in E. constructor; [now apply IH |].
      rewrite (Permutation_map fst (insert_by_index_perm e rest)). cbn [map].
      constructor; [unfold ascending; lia | exact Ha].
Qed.

Lemma sort_by_index_sorted (l : list (string * A)) :
  StronglySorted ascending (map fst (sort_by_index l)).
Proof.
  induction l as [| e rest IH]; cbn [sort_by_index]; [constructor |].
  now apply insert_by_index_sorted.
Qed.

Lemma filter_fst (p : string -> bool) (o : list (string * A)) :
  map fst (filter (fun e => p (fst e)) o) = filter p (map fst o).
Proof.
  induction o as [| e rest IH]; [reflexivity |].
  cbn [filter map]. destruct (p (fst e)); cbn [map]; now rewrite IH.
Qed.

Lemma filter_split_perm (p : string * A -> bool) (o : list (string * A)) :
  Permutation (filter p o ++ filter (fun e => negb (p e)) o) o.
Proof.
  induction o as [| e rest IH]; [reflexivity |].
  cbn [filter]. destruct (p e); cbn [negb app].
  - now apply perm_skip.
  - rewrite <- Permutation_middle. now apply perm_skip.
Qed.

Lemma own_property_order_perm (o : list (string * A)) :
  Permutation (own_property_order o) o.
Proof.
  unfold own_property_order. rewrite sort_by_index_perm.
  apply (filter_split_perm (fun e => is_index (fst e))).
Qed.

(** Array indices first, in ascending order, then the other names as they
    were created. *)
Lemma own_property_order_keys (o : list (string * A)) :
  exists indices,
    map fst (own_property_order o)
    = indices ++ filter (fun k => negb (is_index k)) (map fst o)
    /\ Permutation indices (filter is_index (map fst o))
    /\ StronglySorted ascending indices.
Proof.
  exists (map fst (sort_by_index (filter (fun e => is_index (fst e)) o))).
  unfold own_property_order. rewrite map_app. repeat split.
  - f_equal. apply (filter_fst (fun k => negb (is_index k))).
  - rewrite (Permutation_map fst (sort_by_index_perm _)). now rewrite filter_fst.
  - apply sort_by_index_sorted.
Qed.

Lemma own_property_order_plain (o : list (string * A)) :
  Forall (fun e => is_index (fst e) = false) o -> own_property_order o = o.
Proof.
  unfold own_property_order. induction 1 as [| e rest He Hrest IH]; [reflexivity |].
  cbn [filter]. rewrite He. cbn [negb].
  destruct (filter (fun e0 => is_index (fst e0)) rest) eqn:F.
  - cbn [sort_by_index app] in *. now rewrite IH.
  - exfalso. assert (Hin : In p (filter (fun e0 => is_index (fst e0)) rest))
      by (rewrite F; now left).
    apply filter_In in Hin. destruct Hin as [Hin Hp].
    rewrite Forall_forall in Hrest. rewrite (Hrest p Hin) in Hp. discriminate.
Qed.

End PropertyOrder.

(* ================================================================== *)
(** ** Claims about the local evaluation *)

Section FallbackClaims.
Import AiAssistantChat.

(** C1.  For a station with a reading, the fallback tests temperature, then
    emissions, then noise against 30, 150 and 85, in that order, and the
    first test that passes decides: the station contributes at most one
    suggestion, wherever it stands in the list, and a station above all
    three limits contributes exactly one, for "Temperature". *)
Theorem fallback_priority_order
  (s : Station) (r : SensorReading) (before after : list Station) :
  latestReading s = Some r ->
  let hot := JS.gt (temperature r) (JS.of_Z 30) in
  let smoky := JS.gt (emissions r) (JS.of_Z 150) in
  let loud := JS.gt (noise r) (JS.of_Z 85) in
  localFallback [s]
  = (if hot then [Spec.suggestion_for s r Temperature]
     else if smoky then [Spec.suggestion_for s r PM25Emissions]
     else if loud then [Spec.suggestion_for s r Noise]
     else [])
  /\ List.length (localFallback [s]) <= 1
  /\ localFallback (before ++ s :: after)
     = localFallback before ++ localFallback [s] ++ localFallback after
  /\ (hot = true -> smoky = true -> loud = true ->
      exists g, localFallback [s] = [g]
                /\ parameter_text (parameter g) = "Temperature"
                /\ value g = temperature r
                /\ threshold g = JS.of_Z 30).
Proof.
  intros Hr hot smoky loud.
  assert (E : localFallback [s]
              = (if hot then [Spec.suggestion_for s r Temperature]
                 else if smoky then [Spec.suggestion_for s r PM25Emissions]
                 else if loud then [Spec.suggestion_for s r Noise]
                 else [])).
  { rewrite evaluate_spec. unfold Spec.suggestions_of. rewrite Hr.
    unfold Spec.first_exceeded; cbn [find]; unfold Spec.exceeded.
    cbn [Spec.measured Spec.limit]. fold hot smoky loud.
    destruct hot; [reflexivity |]. destruct smoky; [reflexivity |].
    destruct loud; reflexivity. }
  repeat split.
  - exact E.
  - rewrite evaluate_spec. apply suggestions_of_length.
  - apply localFallback_middle.
  - intros Hh _ _. rewrite E, Hh.
    exists (Spec.suggestion_for s r Temperature). repeat split.
Qed.

Lemma fallback_priority_order_witness :
  localFallback [Sample.all_over]
  = [Spec.suggestion_for Sample.all_over (Sample.at_noon 41 180 99) Temperature]
  /\ List.length (localFallback [Sample.all_over]) <= 1.
Proof.
  pose proof (fallback_priority_order Sample.all_over (Sample.at_noon 41 180 99)
                [Sample.hot] [Sample.silent] eq_refl) as H.
  cbv zeta in H. destruct H as (H1 & H2 & _).
  split; [exact H1 | exact H2].
Defined.

(** C4.  Every suggestion of the fallback comes from a station of the list
    that has a reading: it carries that station's name and area, its value
    is the reading's field its parameter names, and its threshold is the
    constant of that parameter (30, 150 or 85). *)
Theorem fallback_suggestion_invariant (stations : list Station) (g : Suggestion) :
  In g (localFallback stations) ->
  exists s r,
    In s stations
    /\ latestReading s = Some r
    /\ stationName g = Info.name (info s)
    /\ area g = Info.area (info s)
    /\ value g = Spec.measured (parameter g) r
    /\ threshold g = Spec.limit (parameter g)
    /\ JS.gt (value g) (threshold g) = true.
Proof.
  rewrite localFallback_flat, in_flat_map.
  intros (s & Hs & Hg). exists s.
  unfold Spec.suggestions_of in Hg.
  destruct (latestReading s) as [r|] eqn:Hr; [| contradiction].
  exists r.
  destruct (Spec.first_exceeded r) as [p|] eqn:Hp; [| contradiction].
  destruct Hg as [<- | []].
  apply find_some in Hp. destruct Hp as [_ Hp].
  repeat split; try assumption.
Qed.

Lemma fallback_suggestion_invariant_witness :
  exists s r,
    In s [Sample.calm; Sample.smoky]
    /\ latestReading s = Some r
    /\ "B" = Info.name (info s)
    /\ "Bahu Fort" = Info.area (info s)
    /\ JS.of_Z 200 = Spec.measured PM25Emissions r
    /\ JS.of_Z 150 = Spec.limit PM25Emissions
    /\ JS.gt (JS.of_Z 200) (JS.of_Z 150) = true.
Proof.
  apply (fallback_suggestion_invariant [Sample.calm; Sample.smoky]
           (Spec.suggestion_for Sample.smoky (Sample.at_noon 30 200 90) PM25Emissions)).
  vm_compute. left. reflexivity.
Defined.

(** C5.  A station whose [latestReading] is [null] contributes no suggestion
    to the fallback, and neither does a station whose reading exceeds no
    threshold; this does not depend on the endpoint: with any response, the
    analysis ends as it would without that station. *)
Theorem quiet_station_yields_nothing
  (s : Station) (before after : list Station)
  (JSON_parse : string -> option JS.value) (remote : Remote) (st : State) :
  (latestReading s = None
   \/ exists r, latestReading s = Some r
                /\ JS.gt (temperature r) (JS.of_Z 30) = false
                /\ JS.gt (emissions r) (JS.of_Z 150) = false
                /\ JS.gt (noise r) (JS.of_Z 85) = false) ->
  evaluate s = None
  /\ localFallback [s] = []
  /\ localFallback (before ++ s :: after) = localFallback (before ++ after)
  /\ analyzeStationsWithAI JSON_parse (before ++ s :: after) remote st
     = analyzeStationsWithAI JSON_parse (before ++ after) remote st.
Proof.
  intro H.
  assert (E : evaluate s = None).
  { unfold evaluate, reading.
    destruct H as [-> | (r & -> & Ht & He & Hn)]; [reflexivity |].
    cbn [option_map exceeding]. now rewrite Ht, He, Hn. }
  assert (L : localFallback (before ++ s :: after) = localFallback (before ++ after)).
  { rewrite localFallback_middle, localFallback_app.
    unfold localFallback at 2. cbn [map filter_Boolean]. now rewrite E. }
  repeat split.
  - exact E.
  - unfold localFallback. cbn [map filter_Boolean]. now rewrite E.
  - exact L.
  - now apply analyze_ext.
Qed.

Lemma quiet_station_yields_nothing_witness :
  localFallback [Sample.hot; Sample.silent; Sample.smoky]
  = localFallback [Sample.hot; Sample.smoky]
  /\ localFallback [Sample.hot; Sample.calm] = localFallback [Sample.hot].
Proof.
  split.
  - apply (quiet_station_yields_nothing Sample.silent [Sample.hot] [Sample.smoky]
             JSON.parse Rejects initial).
    left. reflexivity.
  - apply (quiet_station_yields_nothing Sample.calm [Sample.hot] []
             JSON.parse Rejects initial).
    right. exists (Sample.at_noon 21 40 55). repeat split.
Defined.

(** C6.  The station named "A" with temperature 35, emissions 10 and
    noise 20: when the endpoint fails (the request throws, the status is not
    ok, or the body is not JSON), the panel ends with exactly one
    suggestion, for "A", "Temperature", value 35, threshold 30 and the
    cooling advice. *)
Theorem scenario_hot_station
  (i : StationId) (lat lon : JS.number) (a when : string)
  (JSON_parse : string -> option JS.value) (body : option JS.value) (st : State) :
  let A := {| id := i;
              info := {| Info.name := "A"; Info.latitude := lat;
                         Info.longitude := lon; Info.area := a |};
              latestReading :=
                Some {| datetime := when; temperature := JS.of_Z 35;
                        emissions := JS.of_Z 10; noise := JS.of_Z 20 |} |} in
  let expected := {| stationName := "A"; area := a; parameter := Temperature;
                     value := JS.of_Z 35; threshold := JS.of_Z 30;
                     suggestion := "Deploy cooling systems or improve ventilation." |} in
  let shown := Resolved {| chatOpen := chatOpen st;
                           suggestions := JS.VArr [to_value expected];
                           loading := false |} in
  localFallback [A] = [expected]
  /\ parameter_text (parameter expected) = "Temperature"
  /\ analyzeStationsWithAI JSON_parse [A] Rejects st = shown
  /\ analyzeStationsWithAI JSON_parse [A] (Responds false body) st = shown
  /\ analyzeStationsWithAI JSON_parse [A] (Responds true None) st = shown.
Proof. cbv zeta. repeat split. Qed.

(** C7.  A station with a reading whose temperature is at most 30 and whose
    emissions exceed 150 contributes exactly one suggestion, for
    "PM 2.5 Emissions", with the reading's emissions as value and 150 as
    threshold. *)
Theorem emissions_after_temperature
  (s : Station) (r : SensorReading) (before after : list Station) :
  latestReading s = Some r ->
  JS.le (temperature r) (JS.of_Z 30) = true ->
  JS.gt (emissions r) (JS.of_Z 150) = true ->
  let expected :=
    {| stationName := Info.name (info s); area := Info.area (info s);
       parameter := PM25Emissions; value := emissions r; threshold := JS.of_Z 150;
       suggestion :=
         "Implement carbon capture technologies or reduce operational hours." |} in
  localFallback [s] = [expected]
  /\ parameter_text (parameter expected) = "PM 2.5 Emissions"
  /\ localFallback (before ++ s :: after)
     = localFallback before ++ [expected] ++ localFallback after.
Proof.
  intros Hr Ht He expected.
  assert (E : localFallback [s] = [expected]).
  { unfold localFallback. cbn [map filter_Boolean]. unfold evaluate, reading.
    rewrite Hr. cbn [option_map exceeding].
    rewrite (le_not_gt _ _ Ht), He. reflexivity. }
  repeat split; [exact E |].
  now rewrite localFallback_middle, E.
Qed.

Lemma emissions_after_temperature_witness :
  localFallback [Sample.smoky]
  = [Spec.suggestion_for Sample.smoky (Sample.at_noon 30 200 90) PM25Emissions].
Proof.
  apply (emissions_after_temperature Sample.smoky (Sample.at_noon 30 200 90) [] []);
    reflexivity.
Defined.

End FallbackClaims.

(* ================================================================== *)
(** ** Claims about the request *)

Section RequestClaims.
Import AiAssistantChat.

(** C2.  When the endpoint answers successfully with the empty array, the
    array is not displayed: it fails the test of line 61, the envelope path
    finds no text to parse, and the fallback runs; the panel ends with the
    fallback's evaluation of the station list, which is not empty when the
    fallback has something to say. *)
Theorem empty_remote_array_falls_back
  (JSON_parse : string -> option JS.value) (stations : list Station) (st : State) :
  JSON_parse "" = None ->
  analyzeStationsWithAI JSON_parse stations (Responds true (Some (JS.VArr []))) st
  = Resolved {| chatOpen := chatOpen st;
                suggestions := JS.VArr (map to_value (localFallback stations));
                loading := false |}
  /\ (localFallback stations <> [] ->
      analyzeStationsWithAI JSON_parse stations (Responds true (Some (JS.VArr []))) st
      <> Resolved {| chatOpen := chatOpen st; suggestions := JS.VArr [];
                     loading := false |}).
Proof.
  intro Hempty.
  assert (E : analyzeStationsWithAI JSON_parse stations
                (Responds true (Some (JS.VArr []))) st
              = Resolved (Spec.fallback_state stations st)).
  { apply analyze_empty. unfold tryBlock. cbn [negb isSuggestionArray JS.isArray andb].
    rewrite fromEnvelope_array, Hempty. reflexivity. }
  split; [exact E |].
  intros Hne. rewrite E. unfold Spec.fallback_state. intro H.
  injection H as H. destruct (localFallback stations); [now apply Hne | discriminate].
Qed.

Lemma empty_remote_array_falls_back_witness :
  analyzeStationsWithAI JSON.parse [Sample.silent; Sample.hot]
    (Responds true (JSON.parse "[]")) initial
  = Resolved {| chatOpen := false;
                suggestions :=
                  JS.VArr [to_value (Spec.suggestion_for Sample.hot
                                       (Sample.at_noon 35 10 20) Temperature)];
                loading := false |}.
Proof.
  apply (empty_remote_array_falls_back JSON.parse [Sample.silent; Sample.hot] initial).
  reflexivity.
Defined.

(** C3.  The analysis does not absorb every malformed payload.  A successful
    response whose envelope carries the text [null] parses to [null]; the
    test [finalSuggestions.length === 0] of line 76 stands outside both
    [try] blocks and throws on it, so the promise is rejected and the panel
    stays loading with no results.  A text that parses to a number is stored
    as the results without any fallback. *)
Theorem null_content_escapes (stations : list Station) (st : State) :
  JSON.parse (dq "{'choices':[{'message':{'content':'null'}}]}")
  = Some (Sample.envelope "null")
  /\ analyzeStationsWithAI JSON.parse stations
       (Responds true (Some (Sample.envelope "null"))) st
     = Rejected {| chatOpen := chatOpen st; suggestions := JS.VArr [];
                   loading := true |}
  /\ analyzeStationsWithAI JSON.parse stations
       (Responds true (Some (Sample.envelope "5"))) st
     = Resolved {| chatOpen := chatOpen st; suggestions := JS.VNum (JS.of_Z 5);
                   loading := false |}.
Proof. repeat split. Qed.

(** C10.  The payload is taken as the suggestion array exactly when it is an
    array whose first element has a truthy [stationName].  Such an array is
    displayed whole, whatever its other elements are.  A non-empty array
    whose first element has none goes through the envelope path, which has
    no text to parse and leaves the fallback to run, whatever its other
    elements are. *)
Theorem direct_array_acceptance
  (JSON_parse : string -> option JS.value) (stations : list Station) (st : State)
  (apiData first : JS.value) (rest : list JS.value) :
  JSON_parse "" = None ->
  (isSuggestionArray apiData = true
   <-> exists f r, apiData = JS.VArr (f :: r) /\ Spec.has_stationName f)
  /\ (Spec.has_stationName first ->
      tryBlock JSON_parse (Responds true (Some (JS.VArr (first :: rest))))
      = Some (JS.VArr (first :: rest))
      /\ analyzeStationsWithAI JSON_parse stations
           (Responds true (Some (JS.VArr (first :: rest)))) st
         = Resolved {| chatOpen := chatOpen st;
                       suggestions := JS.VArr (first :: rest);
                       loading := false |})
  /\ (~ Spec.has_stationName first ->
      tryBlock JSON_parse (Responds true (Some (JS.VArr (first :: rest))))
      = fromEnvelope JSON_parse (JS.VArr (first :: rest))
      /\ analyzeStationsWithAI JSON_parse stations
           (Responds true (Some (JS.VArr (first :: rest)))) st
         = Resolved {| chatOpen := chatOpen st;
                       suggestions := JS.VArr (map to_value (localFallback stations));
                       loading := false |}).
Proof.
  intro Hempty. split; [apply isSuggestionArray_spec |]. split.
  - intro Hf.
    assert (A : isSuggestionArray (JS.VArr (first :: rest)) = true).
    { apply isSuggestionArray_spec. now exists first, rest. }
    split; [| now apply analyze_accepted].
    unfold tryBlock. cbn [negb]. now rewrite A.
  - intro Hf.
    assert (A : isSuggestionArray (JS.VArr (first :: rest)) = false).
    { destruct (isSuggestionArray (JS.VArr (first :: rest))) eqn:E; [| reflexivity].
      apply isSuggestionArray_spec in E. destruct E as (f & r & E & Hs).
      injection E as <- <-. contradiction. }
    assert (T : tryBlock JSON_parse (Responds true (Some (JS.VArr (first :: rest))))
                = fromEnvelope JSON_parse (JS.VArr (first :: rest))).
    { unfold tryBlock. cbn [negb]. now rewrite A. }
    split; [exact T |].
    apply (analyze_empty JSON_parse stations _ st).
    rewrite T, fromEnvelope_array, Hempty. reflexivity.
Qed.

Lemma direct_array_acceptance_witness :
  let valid := to_value (Sample.noisy "B" "Bahu Fort") in
  analyzeStationsWithAI JSON.parse [Sample.hot]
    (Responds true (Some (JS.VArr [JS.VObj [("area", JS.VStr "Channi")]; valid]))) initial
  = Resolved {| chatOpen := false;
                suggestions := JS.VArr (map to_value (localFallback [Sample.hot]));
                loading := false |}
  /\ analyzeStationsWithAI JSON.parse [Sample.hot]
       (Responds true (Some (JS.VArr [valid; JS.VNum (JS.of_Z 7)]))) initial
     = Resolved {| chatOpen := false;
                   suggestions := JS.VArr [valid; JS.VNum (JS.of_Z 7)];
                   loading := false |}.
Proof.
  intro valid. split.
  - apply (direct_array_acceptance JSON.parse [Sample.hot] initial JS.VNull
             (JS.VObj [("area", JS.VStr "Channi")]) [valid] eq_refl).
    intro H. inversion H as [props v Hv Ht]. discriminate Hv.
  - apply (direct_array_acceptance JSON.parse [Sample.hot] initial JS.VNull
             valid [JS.VNum (JS.of_Z 7)] eq_refl).
    now apply (Spec.has_stationName_intro _ (JS.VStr "B")).
Defined.

End RequestClaims.

(* ================================================================== *)
(** ** Claims about the display *)

Section DisplayClaims.
Import AiAssistantChat.
Import Spec.

Lemma group_names (groups : list (string * list Suggestion)) :
  map group_name (map groupBox groups) = map fst groups.
Proof. rewrite map_map. apply map_ext. now intros [k items]. Qed.

Lemma groups_of_keys (l : list Suggestion) :
  map fst (groups_of l) = first_appearance (map stationName l).
Proof. unfold groups_of. rewrite map_map. cbn [fst]. apply map_id. Qed.

Lemma groups_of_entries (l : list Suggestion) :
  Forall (fun e => snd e = sharing (fst e) l /\ snd e <> []) (groups_of l).
Proof.
  unfold groups_of. apply Forall_forall. intros e He.
  apply in_map_iff in He. destruct He as (k & <- & Hk). cbn [fst snd].
  split; [reflexivity |]. apply sharing_some. now apply first_appearance_In.
Qed.

Lemma render_groups_of (l : list Suggestion) :
  Forall (fun g => inherited (stationName g) = false) l ->
  renderSuggestions l = Some (map groupBox (Object_entries (groups_of l))).
Proof.
  intro H. unfold renderSuggestions.
  destruct l as [| g rest]; [reflexivity |].
  cbn [List.length Nat.ltb Nat.leb]. now rewrite reduce_groups_of.
Qed.

Lemma header_shows (k : string) (first : Suggestion) (rest : list Suggestion) :
  header k (first :: rest)
  = React.Element "Typography" React.NoKey
      [ React.Text k; React.Text " ";
        React.Text (if String.eqb (area first) "" then "" else "- " ++ area first) ].
Proof.
  unfold header, headerArea.
  destruct (String.eqb (area first) "") eqn:E; [reflexivity | now rewrite E].
Qed.

(** C8, as the code has it.  When no station name is a member of
    [Object.prototype], the suggestions sharing a station name stand under
    one header, every suggestion under the header of its name; the headers
    of names that are array indices come first, in ascending numeric order,
    and the other headers follow in order of first appearance (so that,
    when no name is an array index, the headers are in order of first
    appearance); each header shows the station name and the area of the
    group's first suggestion. *)
Theorem grouped_display (l : list Suggestion) :
  Forall (fun g => inherited (stationName g) = false) l ->
  let names := first_appearance (map stationName l) in
  exists groups : list (string * list Suggestion),
    renderSuggestions l = Some (map groupBox groups)
    /\ option_map (map group_name) (renderSuggestions l) = Some (map fst groups)
    /\ NoDup (map fst groups)
    /\ (forall g, In g l -> In (stationName g) (map fst groups))
    /\ Forall (fun e => snd e = sharing (fst e) l) groups
    /\ (exists indices,
          map fst groups = indices ++ filter (fun k => negb (is_index k)) names
          /\ Permutation indices (filter is_index names)
          /\ StronglySorted ascending indices)
    /\ (Forall (fun g => is_index (stationName g) = false) l -> map fst groups = names)
    /\ Forall (fun e =>
                 exists first rest,
                   snd e = first :: rest
                   /\ groupBox e
                      = React.Element "Box" (React.KeyStr (fst e))
                          (React.Element "Typography" React.NoKey
                             [ React.Text (fst e); React.Text " ";
                               React.Text (if String.eqb (area first) ""
                                           then "" else "- " ++ area first) ]
                           :: mapi_from 0 suggestionBox (snd e)))
         groups.
Proof.
  intros Hl names. exists (Object_entries (groups_of l)).
  pose proof (own_property_order_perm (groups_of l)) as P.
  fold (Object_entries (groups_of l)) in P.
  assert (PK : Permutation (map fst (Object_entries (groups_of l))) names).
  { rewrite (Permutation_map fst P). now rewrite groups_of_keys. }
  assert (FE : Forall (fun e => snd e = sharing (fst e) l /\ snd e <> [])
                 (Object_entries (groups_of l))).
  { eapply Permutation_Forall; [symmetry; exact P | apply groups_of_entries]. }
  split; [now apply render_groups_of |].
  split; [rewrite render_groups_of by exact Hl; cbn [option_map]; now rewrite group_names |].
  split; [eapply Permutation_NoDup;
          [symmetry; exact PK | apply first_appearance_NoDup] |].
  split.
  { intros g Hg. eapply Permutation_in; [symmetry; exact PK |].
    apply first_appearance_In. now apply in_map. }
  split; [eapply Forall_impl; [| exact FE]; now intros e [He _] |].
  split.
  { destruct (own_property_order_keys (groups_of l)) as (indices & E & Hp & Hs).
    exists indices. rewrite groups_of_keys in E, Hp. now repeat split. }
  split.
  { intro Hplain. unfold Object_entries. rewrite own_property_order_plain.
    - apply groups_of_keys.
    - apply Forall_forall. intros e He. unfold groups_of in He.
      apply in_map_iff in He. destruct He as (k & <- & Hk). cbn [fst].
      apply first_appearance_In, in_map_iff in Hk. destruct Hk as (g & <- & Hg).
      rewrite Forall_forall in Hplain. now apply Hplain. }
  eapply Forall_impl; [| exact FE]. intros [k items] [_ Hne]. cbn [fst snd] in *.
  destruct items as [| first rest]; [contradiction |].
  exists first, rest. split; [reflexivity |].
  cbn [groupBox]. now rewrite header_shows.
Qed.

Lemma grouped_display_witness :
  let l := [ Sample.noisy "B" "Bahu Fort"; Sample.noisy "7" "";
             Sample.noisy "A" "Gandhi Nagar"; Sample.noisy "B" "Fort Road" ] in
  exists groups,
    renderSuggestions l = Some (map groupBox groups)
    /\ map fst groups = ["7"; "B"; "A"]
    /\ Forall (fun e => snd e = sharing (fst e) l) groups.
Proof.
  intro l.
  destruct (grouped_display l) as (groups & H1 & H2 & _ & _ & H5 & _).
  - repeat constructor.
  - exists groups. split; [exact H1 |]. split; [| exact H5].
    assert (E : option_map (map group_name) (renderSuggestions l) = Some ["7"; "B"; "A"])
      by (vm_compute; reflexivity).
    rewrite E in H2. injection H2 as H2. symmetry. exact H2.
Defined.

(** C8, as stated, fails: suggestions for the stations "2" and "1", in that
    order, are shown under the header "1" and then the header "2". *)
Lemma header_order_counterexample :
  let l := [Sample.noisy "2" "Bahu Fort"; Sample.noisy "1" "Channi"] in
  option_map (map group_name) (renderSuggestions l) = Some ["1"; "2"]
  /\ first_appearance (map stationName l) = ["2"; "1"]
  /\ option_map (map group_name) (renderSuggestions l)
     <> Some (first_appearance (map stationName l)).
Proof. intro l. repeat split. vm_compute. discriminate. Qed.

(** A station named after a member of [Object.prototype] breaks the
    rendering: line 203 finds the inherited member, line 204 calls a [push]
    it does not have. *)
Example inherited_name_breaks_rendering :
  renderSuggestions [Sample.noisy "A" "Gandhi Nagar"; Sample.noisy "constructor" ""]
  = None.
Proof. reflexivity. Qed.

End DisplayClaims.

(* ================================================================== *)
(** ** Claims about the map *)

Section MapClaims.
Import StationMap.

Variable toLocaleString : string -> string.

(** C9.  The map holds one marker per station, in the order of the list,
    each at its station's latitude and longitude.  The popup of a station
    with a reading shows the name, then the temperature, the emissions, the
    noise, the two coordinates and the formatted time of the reading; the
    popup of a station without one shows the name and "No reading
    available". *)
Theorem one_marker_per_station (stations : list Station) :
  let shown := markers (Map toLocaleString stations) in
  List.length shown = List.length stations
  /\ Forall2
       (fun s m =>
          key m = id s
          /\ position m = (Info.latitude (info s), Info.longitude (info s))
          /\ flat_map React.leaves (popup m)
             = React.Text (Info.name (info s))
               :: match latestReading s with
                  | Some r =>
                      [ React.Text "Heat:"; React.Text " ";
                        React.Number (temperature r); React.Text (String degree "C");
                        React.Text "Emissions:"; React.Text " ";
                        React.Number (emissions r); React.Text " ppm";
                        React.Text "Noise:"; React.Text " ";
                        React.Number (noise r); React.Text " dB";
                        React.Text "Latitude: "; React.Number (Info.latitude (info s));
                        React.Text "Longitude: "; React.Number (Info.longitude (info s));
                        React.Text "Last updated:"; React.Text " ";
                        React.Text (toLocaleString (datetime r)) ]
                  | None => [ React.Text "No reading available" ]
                  end)
       stations shown.
Proof.
  cbv zeta. cbn [Map markers]. split; [apply length_map |].
  induction stations as [| s rest IH]; cbn [map]; constructor; [| exact IH].
  repeat split. cbn [marker popup]. now destruct (latestReading s).
Qed.

End MapClaims.

(* ================================================================== *)
(** ** More about the local evaluation *)

Section FallbackFacts.
Import AiAssistantChat.
Import Spec.

Lemma suggestions_of_alerted (s : Station) :
  map stationName (suggestions_of s)
  = if alerted s then [Info.name (info s)] else [].
Proof.
  unfold suggestions_of, alerted, first_exceeded.
  destruct (latestReading s) as [r|]; [| reflexivity].
  cbn [find existsb].
  destruct (exceeded r Temperature); [reflexivity |].
  destruct (exceeded r PM25Emissions); [reflexivity |].
  destruct (exceeded r Noise); reflexivity.
Qed.

Lemma localFallback_names (stations : list Station) :
  map stationName (localFallback stations)
  = map (fun s => Info.name (info s)) (filter alerted stations).
Proof.
  induction stations as [| s rest IH]; [reflexivity |].
  rewrite localFallback_cons, evaluate_spec, map_app, suggestions_of_alerted, IH.
  cbn [filter]. now destruct (alerted s).
Qed.

(** X1.  The fallback reports exactly the stations that have a reading above at
    least one threshold, once each and in the order of the station list. *)
Theorem fallback_reports_alerted_stations (stations : list Station) :
  map stationName (localFallback stations)
  = map (fun s => Info.name (info s)) (filter alerted stations)
  /\ List.length (localFallback stations) = List.length (filter alerted stations)
  /\ List.length (localFallback stations) <= List.length stations.
Proof.
  pose proof (localFallback_names stations) as E.
  assert (L : List.length (localFallback stations)
              = List.length (filter alerted stations)).
  { rewrite <- (length_map stationName), E. apply length_map. }
  repeat split; [exact E | exact L |].
  rewrite L. apply filter_length_le.
Qed.

(** X2.  A value that is [NaN], or at most its threshold (the threshold itself
    included), does not alert: a station all of whose values are such
    contributes nothing. *)
Theorem values_within_limits_are_silent (s : Station) (r : SensorReading) :
  latestReading s = Some r ->
  (forall p, measured p r = JS.NaN \/ JS.le (measured p r) (limit p) = true) ->
  evaluate s = None /\ alerted s = false.
Proof.
  intros Hr H.
  assert (G : forall p, exceeded r p = false).
  { intro p. unfold exceeded. destruct (H p) as [-> | Hle];
      [apply gt_NaN | now apply le_not_gt]. }
  split.
  - unfold evaluate, reading. rewrite Hr. cbn [option_map exceeding].
    pose proof (G Temperature) as Gt. pose proof (G PM25Emissions) as Ge.
    pose proof (G Noise) as Gn. unfold exceeded in Gt, Ge, Gn.
    cbn [measured limit] in Gt, Ge, Gn. now rewrite Gt, Ge, Gn.
  - unfold alerted. rewrite Hr. cbn [existsb]. now rewrite !G.
Qed.

Lemma values_within_limits_are_silent_witness :
  evaluate (Sample.station "F" "Nagrota"
              (Some {| datetime := "2025-01-01T12:00:00Z";
                       temperature := JS.of_Z 30; emissions := JS.NaN;
                       noise := JS.of_Z 85 |}))
  = None.
Proof.
  eapply values_within_limits_are_silent; [reflexivity |].
  intros [| |]; cbn; auto.
Defined.

End FallbackFacts.

(* ================================================================== *)
(** ** More about the request *)

Section RequestFacts.
Import AiAssistantChat.
Import Spec.

Lemma toggleChat_involutive (st : State) : toggleChat (toggleChat st) = st.
Proof. destruct st as [o s l]. unfold toggleChat, setChatOpen. cbn. now rewrite negb_involutive. Qed.

(** X3.  Opening or closing the panel and running an analysis do not interfere:
    toggling before the analysis or after it gives the same outcome, the
    analysis leaves [chatOpen] as it finds it, and toggling twice restores
    the state, results included. *)
Theorem toggle_commutes_with_analysis
  (JSON_parse : string -> option JS.value) (stations : list Station) (r : Remote) (st : State) :
  analyzeStationsWithAI JSON_parse stations r (toggleChat st)
  = map_outcome toggleChat (analyzeStationsWithAI JSON_parse stations r st)
  /\ (forall st', analyzeStationsWithAI JSON_parse stations r st = Resolved st'
                  \/ analyzeStationsWithAI JSON_parse stations r st = Rejected st' ->
                  chatOpen st' = chatOpen st)
  /\ toggleChat (toggleChat st) = st
  /\ suggestions (toggleChat st) = suggestions st
  /\ loading (toggleChat st) = loading st.
Proof.
  split; [| split; [| split; [apply toggleChat_involutive | split; reflexivity]]].
  - unfold analyzeStationsWithAI.
    destruct (JS.length _) as [len|]; reflexivity.
  - intros st'. unfold analyzeStationsWithAI.
    destruct (JS.length _) as [len|]; intros [H | H]; try discriminate;
      injection H as <-; reflexivity.
Qed.

(** X4.  Every analysis starts from cleared results: its outcome depends on the
    earlier state through [chatOpen] alone. *)
Theorem analysis_forgets_previous_results
  (JSON_parse : string -> option JS.value) (stations : list Station) (r : Remote) (st st' : State) :
  chatOpen st = chatOpen st' ->
  analyzeStationsWithAI JSON_parse stations r st
  = analyzeStationsWithAI JSON_parse stations r st'.
Proof.
  intro H. unfold analyzeStationsWithAI, setSuggestions, setLoading. cbn.
  now rewrite H.
Qed.

Lemma analysis_forgets_previous_results_witness :
  analyzeStationsWithAI JSON.parse [Sample.hot] Rejects initial
  = analyzeStationsWithAI JSON.parse [Sample.hot] Rejects
      {| chatOpen := false;
         suggestions := JS.VArr [to_value (Sample.noisy "Z" "old")];
         loading := true |}.
Proof.
  apply (analysis_forgets_previous_results JSON.parse). reflexivity.
Defined.

Lemma length_nullish (v : JS.value) : JS.length v = None <-> JS.nullish v = true.
Proof. destruct v; cbn; split; intro H; try discriminate; reflexivity. Qed.

Lemma tryBlock_nullish (JSON_parse : string -> option JS.value)
  (r : Remote) (v : JS.value) :
  tryBlock JSON_parse r = Some v -> JS.nullish v = true ->
  exists apiData,
    r = Responds true (Some apiData)
    /\ isSuggestionArray apiData = false
    /\ fromEnvelope JSON_parse apiData = Some v.
Proof.
  unfold tryBlock. destruct r as [| [|] [apiData|]]; try discriminate.
  cbn [negb]. destruct (isSuggestionArray apiData) eqn:A.
  - intros [= <-] Hn. unfold isSuggestionArray in A.
    destruct apiData; discriminate.
  - intros H _. now exists apiData.
Qed.

Lemma fromEnvelope_parsed (JSON_parse : string -> option JS.value)
  (apiData v : JS.value) :
  fromEnvelope JSON_parse apiData = Some v ->
  v = JS.VArr []
  \/ exists text, JSON_parse (JS.trim (JS.strip_fences text)) = Some v.
Proof.
  unfold fromEnvelope. destruct (JS.get apiData "choices") as [choices|]; [| discriminate].
  cbv zeta.
  destruct (if JS.truthy _ then _ else _) as [ | | | | text | | ]; try discriminate.
  destruct (JSON_parse (JS.trim (JS.strip_fences text))) as [parsed|] eqn:P.
  - intros [= <-]. right. now exists text.
  - intros [= <-]. now left.
Qed.

(** X5.  The analysis lets an exception out in one case only: the response is
    ok, its body is not taken as the suggestion array, and the text of its
    envelope parses to [null] (or [undefined]).  The panel is then left
    loading with no results.  In every other case the analysis resolves
    with [loading] false. *)
Theorem rejection_characterised
  (JSON_parse : string -> option JS.value) (stations : list Station) (r : Remote) (st : State) :
  ((exists st', analyzeStationsWithAI JSON_parse stations r st = Rejected st')
   <-> exists apiData text v,
         r = Responds true (Some apiData)
         /\ isSuggestionArray apiData = false
         /\ fromEnvelope JSON_parse apiData = Some v
         /\ JSON_parse (JS.trim (JS.strip_fences text)) = Some v
         /\ JS.nullish v = true)
  /\ (forall st', analyzeStationsWithAI JSON_parse stations r st = Rejected st' ->
                  st' = {| chatOpen := chatOpen st; suggestions := JS.VArr [];
                           loading := true |})
  /\ (forall st', analyzeStationsWithAI JSON_parse stations r st = Resolved st' ->
                  loading st' = false).
Proof.
  unfold analyzeStationsWithAI. repeat split.
  - intros (st' & H).
    destruct (tryBlock JSON_parse r) as [v|] eqn:T; [| discriminate].
    destruct (JS.length v) eqn:L; [discriminate |].
    apply length_nullish in L.
    destruct (tryBlock_nullish JSON_parse r v T L) as (apiData & -> & A & F).
    destruct (fromEnvelope_parsed JSON_parse apiData v F) as [-> | (text & P)]; [discriminate |].
    now exists apiData, text, v.
  - intros (apiData & text & v & -> & A & F & _ & Hn).
    unfold tryBlock. cbn [negb]. rewrite A, F.
    apply length_nullish in Hn. rewrite Hn. eauto.
  - intros st'. destruct (JS.length _); [discriminate |]. now intros [= <-].
  - intros st'. destruct (JS.length _); [| discriminate]. now intros [= <-].
Qed.

(** X6.  The envelope path validates nothing: when the text of the envelope
    parses to a non-empty array, that array becomes the results as it is,
    whether or not its elements are suggestion records. *)
Theorem envelope_array_shown_unchecked
  (JSON_parse : string -> option JS.value) (stations : list Station) (st : State)
  (apiData choices first : JS.value) (rest : list JS.value) (text : string) :
  isSuggestionArray apiData = false ->
  JS.get apiData "choices" = Some choices ->
  JS.get_opt (JS.get_opt (JS.index0_opt choices) "message") "content" = JS.VStr text ->
  JSON_parse (JS.trim (JS.strip_fences text)) = Some (JS.VArr (first :: rest)) ->
  analyzeStationsWithAI JSON_parse stations (Responds true (Some apiData)) st
  = Resolved {| chatOpen := chatOpen st;
                suggestions := JS.VArr (first :: rest);
                loading := false |}.
Proof.
  intros A C M P. unfold analyzeStationsWithAI, tryBlock, fromEnvelope.
  cbn [negb]. rewrite A, C, M. cbv zeta.
  assert (E : (if JS.truthy (JS.VStr text) then JS.VStr text else JS.VStr "")
              = JS.VStr text).
  { cbn [JS.truthy]. destruct (String.eqb text "") eqn:T; [| reflexivity].
    apply String.eqb_eq in T. now subst. }
  rewrite E, P.
  destruct (length_cons_not_zero first rest) as (len & -> & ->). reflexivity.
Qed.

Lemma envelope_array_shown_unchecked_witness :
  analyzeStationsWithAI JSON.parse [Sample.hot]
    (Responds true (Some (Sample.envelope "```json [7, null] ```"))) initial
  = Resolved {| chatOpen := false;
                suggestions := JS.VArr [JS.VNum (JS.of_Z 7); JS.VNull];
                loading := false |}.
Proof.
  eapply (envelope_array_shown_unchecked JSON.parse [Sample.hot] initial
            (Sample.envelope "```json [7, null] ```")); reflexivity.
Defined.

(** X7.  A well-typed suggestion array sent directly is shown as sent when its
    first record has a station name, and is discarded for the fallback when
    that name is empty, however many records follow. *)
Theorem typed_array_needs_first_name
  (JSON_parse : string -> option JS.value) (stations : list Station) (st : State)
  (g : Suggestion) (rest : list Suggestion) :
  JSON_parse "" = None ->
  analyzeStationsWithAI JSON_parse stations
    (Responds true (Some (JS.VArr (map to_value (g :: rest))))) st
  = Resolved {| chatOpen := chatOpen st;
                suggestions :=
                  if String.eqb (stationName g) ""
                  then JS.VArr (map to_value (localFallback stations))
                  else JS.VArr (map to_value (g :: rest));
                loading := false |}.
Proof.
  intro Hempty. cbn [map].
  destruct (String.eqb (stationName g) "") eqn:E.
  - apply (analyze_empty JSON_parse stations _ st).
    unfold tryBlock, isSuggestionArray. cbn. rewrite E. cbn.
    unfold fromEnvelope. cbn. now rewrite Hempty.
  - apply analyze_accepted. unfold isSuggestionArray. cbn. now rewrite E.
Qed.

Lemma typed_array_needs_first_name_witness :
  analyzeStationsWithAI JSON.parse [Sample.hot]
    (Responds true
       (Some (JS.VArr (map to_value [Sample.noisy "" "Channi"; Sample.noisy "B" "Bahu Fort"]))))
    initial
  = Resolved {| chatOpen := false;
                suggestions := JS.VArr (map to_value (localFallback [Sample.hot]));
                loading := false |}.
Proof.
  apply (typed_array_needs_first_name JSON.parse [Sample.hot] initial
           (Sample.noisy "" "Channi") [Sample.noisy "B" "Bahu Fort"]).
  reflexivity.
Defined.

End RequestFacts.

(* ================================================================== *)
(** ** Cleaning the text of an envelope (line 65) *)

Section Cleaning.
Import AiAssistantChat.
Import Spec.

Local Open Scope string_scope.

Lemma append_empty (s : string) : s ++ "" = s.
Proof. induction s as [| c s IH]; cbn; [reflexivity | now rewrite IH]. Qed.

Lemma space_not_backtick (c : ascii) : JS.is_space c = true -> Ascii.eqb c "`" = false.
Proof.
  intro H. destruct (Ascii.eqb c "`") eqn:E; [| reflexivity].
  apply Ascii.eqb_eq in E. subst c. discriminate H.
Qed.

Lemma blank_plain (s : string) : blank s = true -> plain s = true.
Proof.
  induction s as [| c s IH]; [reflexivity |]. cbn [blank plain].
  intro H. apply andb_true_iff in H. destruct H as [Hc Hs].
  now rewrite (space_not_backtick c Hc), IH.
Qed.

(** No match starts on a character that is not a backtick. *)
Lemma strip_keeps_other (c : ascii) (rest : string) :
  Ascii.eqb c "`" = false ->
  JS.strip_fences_from 0 (String c rest) = String c (JS.strip_fences_from 0 rest).
Proof.
  intro H. cbn [JS.strip_fences_from JS.prefix_of].
  rewrite Ascii.eqb_sym, H. reflexivity.
Qed.

Lemma strip_plain_app (a t : string) :
  plain a = true ->
  JS.strip_fences_from 0 (a ++ t) = a ++ JS.strip_fences_from 0 t.
Proof.
  induction a as [| c a IH]; [reflexivity |]. cbn [plain append].
  intro H. apply andb_true_iff in H. destruct H as [Hc Ha].
  apply negb_true_iff in Hc. now rewrite strip_keeps_other, IH.
Qed.

Lemma strip_plain (s : string) : plain s = true -> JS.strip_fences s = s.
Proof.
  intro H. unfold JS.strip_fences.
  rewrite <- (append_empty s) at 1. rewrite strip_plain_app by exact H.
  apply append_empty.
Qed.

Lemma trim_start_blank (b : string) : blank b = true -> JS.trim_start b = "".
Proof.
  induction b as [| c b IH]; [reflexivity |]. cbn [blank JS.trim_start].
  intro H. apply andb_true_iff in H. destruct H as [-> Hb]. now apply IH.
Qed.

Lemma trim_start_blank_app (a t : string) :
  blank a = true -> JS.trim_start (a ++ t) = JS.trim_start t.
Proof.
  induction a as [| c a IH]; [reflexivity |]. cbn [blank append JS.trim_start].
  intro H. apply andb_true_iff in H. destruct H as [-> Ha]. now apply IH.
Qed.

Lemma trim_start_app_blank (s b : string) :
  blank b = true ->
  JS.trim_start (s ++ b)
  = match JS.trim_start s with
    | EmptyString => EmptyString
    | t => t ++ b
    end.
Proof.
  intro Hb. induction s as [| c s IH]; cbn [append JS.trim_start].
  - now apply trim_start_blank.
  - destruct (JS.is_space c); [exact IH | reflexivity].
Qed.

Lemma trim_end_blank (b : string) : blank b = true -> JS.trim_end b = "".
Proof.
  induction b as [| c b IH]; [reflexivity |]. cbn [blank JS.trim_end].
  intro H. apply andb_true_iff in H. destruct H as [Hc Hb].
  now rewrite IH, Hc.
Qed.

Lemma trim_end_app_blank (s b : string) :
  blank b = true -> JS.trim_end (s ++ b) = JS.trim_end s.
Proof.
  intro Hb. induction s as [| c s IH]; cbn [append JS.trim_end].
  - now apply trim_end_blank.
  - now rewrite IH.
Qed.

Lemma trim_padded (a body b : string) :
  blank a = true -> blank b = true ->
  JS.trim (a ++ body ++ b) = JS.trim body.
Proof.
  intros Ha Hb. unfold JS.trim.
  rewrite trim_start_blank_app, trim_start_app_blank by assumption.
  destruct (JS.trim_start body) as [| c t]; [reflexivity |].
  now apply trim_end_app_blank.
Qed.

(** What the envelope path makes of a text. *)
Lemma tryBlock_envelope (JSON_parse : string -> option JS.value) (text : string) :
  tryBlock JSON_parse (Responds true (Some (Sample.envelope text)))
  = Some match JSON_parse (JS.trim (JS.strip_fences text)) with
         | Some parsed => parsed
         | None => JS.VArr []
         end.
Proof.
  unfold tryBlock, fromEnvelope. cbn.
  destruct (String.eqb text "") eqn:E; cbn.
  - apply String.eqb_eq in E. subst text. cbn. now destruct (JSON_parse "").
  - now destruct (JSON_parse (JS.trim (JS.strip_fences text))).
Qed.

(** X8.  Code fences are transparent: a text without backticks, wrapped in a
    json fence with any white space around it, is cleaned to the same
    string as the bare text, its trimmed form, and the analysis of the
    fenced envelope ends as the analysis of the bare one. *)
Theorem fences_are_transparent
  (JSON_parse : string -> option JS.value) (stations : list Station) (st : State)
  (a body b : string) :
  blank a = true -> blank b = true -> plain body = true ->
  let fenced := "```json" ++ a ++ body ++ b ++ "```" in
  JS.trim (JS.strip_fences fenced) = JS.trim body
  /\ JS.trim (JS.strip_fences body) = JS.trim body
  /\ analyzeStationsWithAI JSON_parse stations
       (Responds true (Some (Sample.envelope fenced))) st
     = analyzeStationsWithAI JSON_parse stations
         (Responds true (Some (Sample.envelope body))) st.
Proof.
  intros Ha Hb Hp fenced.
  assert (F : JS.trim (JS.strip_fences fenced) = JS.trim body).
  { unfold fenced, JS.strip_fences. cbn [append JS.strip_fences_from JS.prefix_of].
    cbn. rewrite strip_plain_app by now apply blank_plain.
    rewrite strip_plain_app by exact Hp.
    rewrite strip_plain_app by now apply blank_plain.
    cbn. rewrite append_empty. now apply trim_padded. }
  assert (B : JS.trim (JS.strip_fences body) = JS.trim body)
    by now rewrite strip_plain.
  repeat split; [exact F | exact B |].
  unfold analyzeStationsWithAI. now rewrite !tryBlock_envelope, F, B.
Qed.

Lemma fences_are_transparent_witness :
  JS.trim (JS.strip_fences "```json
[{}]
```") = "[{}]".
Proof.
  apply (fences_are_transparent JSON.parse [] initial
           (String (ascii_of_nat 10) "") "[{}]" (String (ascii_of_nat 10) ""));
    reflexivity.
Defined.

Lemma prefix_of_app_l (p q s : string) :
  JS.prefix_of (p ++ q) s = true -> JS.prefix_of p s = true.
Proof.
  revert s. induction p as [| c p IH]; intro s; [reflexivity |].
  cbn [append JS.prefix_of]. destruct s as [| d s]; [discriminate |].
  intro H. apply andb_true_iff in H. destruct H as [-> H]. now apply IH.
Qed.

Lemma prefix_of_app_r (p a t : string) :
  JS.prefix_of p a = true -> JS.prefix_of p (a ++ t) = true.
Proof.
  revert a. induction p as [| c p IH]; intro a; [reflexivity |].
  destruct a as [| d a]; [discriminate |]. cbn [append JS.prefix_of].
  intro H. apply andb_true_iff in H. destruct H as [-> H]. now apply IH.
Qed.

(** A backtick at the head of the output stood at the head of the input,
    and so did two. *)
Lemma strip_head (s : string) :
  (JS.prefix_of "`" (JS.strip_fences_from 0 s) = true -> JS.prefix_of "`" s = true)
  /\ (JS.prefix_of "``" (JS.strip_fences_from 0 s) = true -> JS.prefix_of "``" s = true).
Proof.
  induction s as [| c rest [IH1 _]]; [split; discriminate |].
  cbn [JS.strip_fences_from].
  destruct (JS.prefix_of "```json" (String c rest)) eqn:J.
  { split; intros _.
    - exact (prefix_of_app_l "`" "``json" _ J).
    - exact (prefix_of_app_l "``" "`json" _ J). }
  destruct (JS.prefix_of "```" (String c rest)) eqn:T.
  { split; intros _.
    - exact (prefix_of_app_l "`" "``" _ T).
    - exact (prefix_of_app_l "``" "`" _ T). }
  split; cbn [JS.prefix_of]; [tauto |].
  intro H. apply andb_true_iff in H. destruct H as [-> H]. now apply IH1.
Qed.

Lemma strip_no_fence (s : string) (k : nat) :
  has_fence (JS.strip_fences_from k s) = false.
Proof.
  revert k. induction s as [| c rest IH]; intro k; [reflexivity |].
  cbn [JS.strip_fences_from]. destruct k as [| k]; [| apply IH].
  destruct (JS.prefix_of "```json" (String c rest)); [apply IH |].
  destruct (JS.prefix_of "```" (String c rest)) eqn:T; [apply IH |].
  cbn [has_fence]. rewrite IH, orb_false_r.
  destruct (JS.prefix_of "```" (String c (JS.strip_fences_from 0 rest))) eqn:O;
    [| reflexivity].
  cbn [JS.prefix_of] in O, T. apply andb_true_iff in O. destruct O as [Hc O].
  apply (proj2 (strip_head rest)) in O. cbn [JS.prefix_of] in O.
  rewrite Hc, O in T. discriminate T.
Qed.

Lemma has_fence_trim_start (s : string) :
  has_fence s = false -> has_fence (JS.trim_start s) = false.
Proof.
  induction s as [| c rest IH]; [reflexivity |]. cbn [JS.trim_start].
  destruct (JS.is_space c); [| tauto].
  cbn [has_fence]. intro H. apply orb_false_iff in H. now apply IH.
Qed.

Lemma has_fence_app (a t : string) :
  has_fence (a ++ t) = false -> has_fence a = false.
Proof.
  induction a as [| c a IH]; [reflexivity |]. cbn [append has_fence].
  intro H. apply orb_false_iff in H. destruct H as [H1 H2].
  rewrite (IH H2), orb_false_r.
  destruct (JS.prefix_of "```" (String c a)) eqn:P; [| reflexivity].
  apply (prefix_of_app_r _ _ t) in P. cbn [append] in P. congruence.
Qed.

Lemma trim_end_prefix (s : string) : exists t, s = JS.trim_end s ++ t.
Proof.
  induction s as [| c rest [t IH]]; [now exists "" |].
  cbn [JS.trim_end]. destruct (JS.trim_end rest) as [| d x].
  - destruct (JS.is_space c); [now exists (String c rest) |].
    exists rest. reflexivity.
  - exists t. cbn [append] in *. now f_equal.
Qed.

(** X9.  After the cleaning of line 65 no code fence marker is left in the text
    handed to [JSON.parse], whatever the endpoint sent. *)
Theorem cleaned_text_has_no_fence (text : string) :
  has_fence (JS.trim (JS.strip_fences text)) = false.
Proof.
  unfold JS.trim, JS.strip_fences.
  destruct (trim_end_prefix (JS.trim_start (JS.strip_fences_from 0 text))) as [t E].
  apply (has_fence_app _ t). rewrite <- E.
  apply has_fence_trim_start, strip_no_fence.
Qed.

End Cleaning.

(* ================================================================== *)
(** ** More about the display *)

Section DisplayFacts.
Import AiAssistantChat.
Import Spec.






Lemma flat_map_nil {A B : Type} (l : list A) : flat_map (fun _ : A => @nil B) l = [].
Proof. induction l; [reflexivity | exact IHl]. Qed.

Lemma flat_sharing_cons (g : Suggestion) (rest : list Suggestion) (ks : list string) :
  NoDup ks -> In (stationName g) ks ->
  Permutation (flat_map (fun k => sharing k (g :: rest)) ks)
              (g :: flat_map (fun k => sharing k rest) ks).
Proof.
  induction 1 as [| a ks Ha Hnd IH]; [contradiction |].
  intro Hin. cbn [flat_map]. unfold sharing at 1. cbn [filter].
  fold (sharing a rest). destruct (String.eqb (stationName g) a) eqn:E.
  - apply String.eqb_eq in E. subst a. cbn [app]. apply perm_skip.
    apply Permutation_app_head.
    rewrite !flat_map_concat_map.
    rewrite (map_ext_in (fun k => sharing k (g :: rest)) (fun k => sharing k rest));
      [reflexivity |].
    intros k Hk. unfold sharing. cbn [filter].
    destruct (String.eqb (stationName g) k) eqn:E'; [| reflexivity].
    apply String.eqb_eq in E'. subst k. contradiction.
  - apply String.eqb_neq in E. destruct Hin as [Hin | Hin]; [congruence |].
    rewrite (IH Hin). apply Permutation_sym, Permutation_middle.
Qed.

Lemma flat_sharing (l : list Suggestion) (ks : list string) :
  NoDup ks -> (forall g, In g l -> In (stationName g) ks) ->
  Permutation (flat_map (fun k => sharing k l) ks) l.
Proof.
  intros Hnd. induction l as [| g rest IH]; intro Hin.
  - unfold sharing. cbn [filter]. now rewrite flat_map_nil.
  - rewrite flat_sharing_cons; [| exact Hnd | apply Hin; now left].
    apply perm_skip. apply IH. intros x Hx. apply Hin. now right.
Qed.

Lemma groups_of_items (l : list Suggestion) :
  Permutation (flat_map snd (groups_of l)) l.
Proof.
  unfold groups_of. rewrite flat_map_concat_map, map_map. cbn [snd].
  rewrite <- flat_map_concat_map. apply flat_sharing.
  - apply first_appearance_NoDup.
  - intros g Hg. apply first_appearance_In. now apply in_map.
Qed.

Lemma first_appearance_length (names : list string) :
  List.length (first_appearance names) <= List.length names.
Proof.
  induction names as [| n rest IH]; [apply le_n |]. cbn [first_appearance List.length].
  pose proof (filter_length_le (fun m => negb (String.eqb m n)) (first_appearance rest)).
  lia.
Qed.

Lemma item_leaves (items : list Suggestion) (i : nat) :
  map React.leaves (mapi_from i suggestionBox items)
  = map (fun g => React.leaves (suggestionBox g 0)) items.
Proof.
  revert i. induction items as [| g items IH]; intro i; [reflexivity |].
  cbn [mapi_from map]. now rewrite IH.
Qed.

Lemma shown_items (groups : list (string * list Suggestion)) :
  map React.leaves (flat_map box_items (map groupBox groups))
  = map (fun g => React.leaves (suggestionBox g 0)) (flat_map snd groups).
Proof.
  induction groups as [| [k items] groups IH]; [reflexivity |].
  cbn [map flat_map groupBox box_items snd]. rewrite !map_app, IH, item_leaves.
  reflexivity.
Qed.

(** X11.  Nothing is lost and nothing is repeated: when rendering succeeds, the
    item boxes under all the headers show the suggestions of the list, each
    exactly once, and there are at most as many groups as suggestions. *)
Theorem every_suggestion_shown_once (l : list Suggestion) :
  Forall (fun g => inherited (stationName g) = false) l ->
  exists boxes,
    renderSuggestions l = Some boxes
    /\ Permutation (map React.leaves (flat_map box_items boxes))
                   (map (fun g => React.leaves (suggestionBox g 0)) l)
    /\ List.length (flat_map box_items boxes) = List.length l
    /\ List.length boxes <= List.length l.
Proof.
  intro H. exists (map groupBox (Object_entries (groups_of l))).
  pose proof (own_property_order_perm (groups_of l)) as P.
  fold (Object_entries (groups_of l)) in P.
  assert (Q : Permutation (flat_map snd (Object_entries (groups_of l))) l).
  { rewrite P. apply groups_of_items. }
  assert (S : Permutation (map React.leaves
                             (flat_map box_items
                                (map groupBox (Object_entries (groups_of l)))))
                          (map (fun g => React.leaves (suggestionBox g 0)) l)).
  { rewrite shown_items. now apply Permutation_map. }
  split; [now apply render_groups_of |]. split; [exact S |]. split.
  - rewrite <- (length_map React.leaves), (Permutation_length S). apply length_map.
  - rewrite length_map, (Permutation_length P). unfold groups_of.
    rewrite length_map. rewrite <- (length_map stationName l).
    apply first_appearance_length.
Qed.

Lemma every_suggestion_shown_once_witness :
  exists boxes,
    renderSuggestions [Sample.noisy "B" "x"; Sample.noisy "7" "y"; Sample.noisy "B" "z"]
    = Some boxes
    /\ List.length (flat_map box_items boxes) = 3.
Proof.
  destruct (every_suggestion_shown_once
              [Sample.noisy "B" "x"; Sample.noisy "7" "y"; Sample.noisy "B" "z"])
    as (boxes & H1 & _ & H3 & _).
  - repeat constructor.
  - exists boxes. split; [exact H1 | exact H3].
Defined.

Lemma filter_keeps_all {A : Type} (f : A -> bool) (l : list A) :
  (forall x, In x l -> f x = true) -> filter f l = l.
Proof.
  induction l as [| a rest IH]; [reflexivity |]. intro H. cbn [filter].
  rewrite (H a (or_introl eq_refl)), IH; [reflexivity |].
  intros x Hx. apply H. now right.
Qed.

Lemma first_appearance_distinct (names : list string) :
  NoDup names -> first_appearance names = names.
Proof.
  induction 1 as [| n rest Hn Hnd IH]; [reflexivity |].
  cbn [first_appearance]. rewrite IH. f_equal. apply filter_keeps_all.
  intros m Hm. apply negb_true_iff, String.eqb_neq. congruence.
Qed.

Lemma sharing_distinct (l : list Suggestion) (g : Suggestion) :
  NoDup (map stationName l) -> In g l -> sharing (stationName g) l = [g].
Proof.
  induction l as [| a rest IH]; [contradiction |]. cbn [map].
  intros Hnd Hin. apply NoDup_cons_iff in Hnd. destruct Hnd as [Ha Hnd].
  unfold sharing. cbn [filter]. fold (sharing (stationName g) rest).
  destruct Hin as [-> | Hin].
  - rewrite String.eqb_refl. f_equal. now apply sharing_none.
  - destruct (String.eqb (stationName a) (stationName g)) eqn:E.
    + apply String.eqb_eq in E. rewrite E in Ha.
      destruct Ha. now apply in_map.
    + now apply IH.
Qed.

Lemma groups_of_distinct (l : list Suggestion) :
  NoDup (map stationName l) ->
  groups_of l = map (fun g => (stationName g, [g])) l.
Proof.
  intro Hnd. unfold groups_of. rewrite first_appearance_distinct, map_map by exact Hnd.
  apply map_ext_in. intros g Hg. now rewrite sharing_distinct.
Qed.

Lemma alerted_names_distinct (stations : list Station) :
  let name_of := fun s : Station => Info.name (info s) in
  NoDup (map name_of stations) -> NoDup (map name_of (filter alerted stations)).
Proof.
  intro name_of. induction stations as [| s rest IH]; cbn [map filter]; [trivial |].
  rewrite NoDup_cons_iff. intros [Hs Hrest].
  destruct (alerted s); [| now apply IH]. cbn [map].
  apply NoDup_cons; [| now apply IH].
  rewrite in_map_iff. intros (x & E & Hx). apply Hs.
  rewrite in_map_iff. exists x. apply filter_In in Hx. tauto.
Qed.

(** X12.  The fallback's results on screen: when the stations have distinct names
    that are neither array indices nor members of [Object.prototype], the
    panel shows one group per alerted station, in the order of the station
    list, each with its single suggestion. *)
Theorem fallback_results_displayed (stations : list Station) :
  NoDup (map (fun s => Info.name (info s)) stations) ->
  Forall (fun s => inherited (Info.name (info s)) = false
                   /\ is_index (Info.name (info s)) = false) stations ->
  renderSuggestions (localFallback stations)
  = Some (map (fun g => groupBox (stationName g, [g])) (localFallback stations))
  /\ map group_name (map (fun g => groupBox (stationName g, [g])) (localFallback stations))
     = map (fun s => Info.name (info s)) (filter alerted stations).
Proof.
  intros Hnd Hall.
  assert (N : NoDup (map stationName (localFallback stations))).
  { rewrite localFallback_names. now apply alerted_names_distinct. }
  assert (F : forall g, In g (localFallback stations) ->
                        inherited (stationName g) = false
                        /\ is_index (stationName g) = false).
  { intros g Hg. apply (in_map stationName) in Hg. rewrite localFallback_names in Hg.
    apply in_map_iff in Hg. destruct Hg as (s & <- & Hs). apply filter_In in Hs.
    rewrite Forall_forall in Hall. now apply Hall. }
  split.
  - rewrite render_groups_of by (apply Forall_forall; intros g Hg; now apply F).
    unfold Object_entries. rewrite groups_of_distinct by exact N.
    rewrite own_property_order_plain, map_map; [reflexivity |].
    apply Forall_forall. intros e He. apply in_map_iff in He.
    destruct He as (g & <- & Hg). now apply F.
  - rewrite map_map. cbn [groupBox group_name]. apply localFallback_names.
Qed.

Lemma fallback_results_displayed_witness :
  option_map (map group_name)
    (renderSuggestions (localFallback [Sample.hot; Sample.calm; Sample.smoky]))
  = Some ["A"; "B"].
Proof.
  destruct (fallback_results_displayed [Sample.hot; Sample.calm; Sample.smoky])
    as [H1 H2].
  - repeat constructor; cbn; intuition discriminate.
  - repeat constructor.
  - rewrite H1. cbn [option_map]. rewrite H2. reflexivity.
Defined.





End DisplayFacts.

(* ================================================================== *)
(** ** More about the map *)

Section MapFacts.
Import StationMap.

Variable toLocaleString : string -> string.

(** X15.  The markers follow the station list and nothing else does: the markers
    of two lists put together are the markers of each, side by side; the
    React keys are the station ids, so distinct ids give distinct keys; and
    the centre, the zoom and the tiles are the same for every list (the map
    never recentres on its stations). *)
Theorem markers_follow_stations (l1 l2 : list Station) :
  markers (Map toLocaleString (l1 ++ l2))
  = markers (Map toLocaleString l1) ++ markers (Map toLocaleString l2)
  /\ map key (markers (Map toLocaleString l1)) = map id l1
  /\ (NoDup (map id l1) -> NoDup (map key (markers (Map toLocaleString l1))))
  /\ center (Map toLocaleString l1) = center (Map toLocaleString l2)
  /\ zoom (Map toLocaleString l1) = zoom (Map toLocaleString l2)
  /\ tiles (Map toLocaleString l1) = tiles (Map toLocaleString l2).
Proof.
  assert (K : map key (markers (Map toLocaleString l1)) = map id l1).
  { cbn [Map markers]. rewrite map_map. apply map_ext. reflexivity. }
  repeat split.
  - cbn [Map markers]. apply map_app.
  - exact K.
  - now rewrite K.
Qed.

End MapFacts.
